(** * The catalogue-text pipeline (main.py and aktuell.py)

    A shallow embedding of the two scripts of the repository, which are
    the same program with English (main.py) and German (aktuell.py)
    message texts:

    - [safe_value], [get_val]                 the value normaliser,
    - [build_list_sentences], [build_prompt]  the prompt builder,
    - [generate_catalog_text]                 the generation client,
    - [find_images_for_object]                the image locator,
    - [process_excel]                         the batch orchestrator.

    Python strings are sequences of Unicode code points; the operating
    system, the HTTP service, the spreadsheet reader and the printed
    form of a pandas Series are oracles the functions take as
    arguments; time.sleep and requests.post leave an entry in an event
    trace.  Console output (print, tqdm) is not modelled. *)

From Stdlib Require Import String Ascii.
From Stdlib Require Import List Bool Arith ZArith NArith Lia.
From Stdlib Require Import Sorted Permutation.
From Stdlib Require QArith.
Import ListNotations.

(* ================================================================== *)
(** * Python strings                                                   *)
(* ================================================================== *)

(** A [str] is the list of its code points, so [len], slicing and
    comparison are those of lists. *)
Definition codepoint := N.
Definition str := list codepoint.

Module Utf8.

(** String literals of this file are UTF-8, as the source files are;
    [decode] turns the bytes of a literal into code points. *)
Definition byte_of (a : ascii) : N := N_of_ascii a.

Fixpoint bytes (s : string) : list N :=
  match s with
  | EmptyString => []
  | String a r => byte_of a :: bytes r
  end.

Definition cont (b : N) : N := (b - 128)%N.

Fixpoint decode (bs : list N) : str :=
  match bs with
  | [] => []
  | b0 :: r0 =>
      if (b0 <? 192)%N then b0 :: decode r0
      else if (b0 <? 224)%N then
        match r0 with
        | b1 :: r1 => ((b0 - 192) * 64 + cont b1)%N :: decode r1
        | [] => [b0]
        end
      else if (b0 <? 240)%N then
        match r0 with
        | b1 :: b2 :: r2 =>
            ((b0 - 224) * 4096 + cont b1 * 64 + cont b2)%N :: decode r2
        | _ => [b0]
        end
      else
        match r0 with
        | b1 :: b2 :: b3 :: r3 =>
            ((b0 - 240) * 262144 + cont b1 * 4096 + cont b2 * 64 + cont b3)%N
              :: decode r3
        | _ => [b0]
        end
  end.

End Utf8.

(** [py "text"] is the Python string written "text" in the source. *)
Definition py (s : string) : str := Utf8.decode (Utf8.bytes s).
Arguments py s%_string.

(** The double quote, which a literal of this file cannot hold. *)
Definition dquote : str := [34%N].

Definition str_eqb (a b : str) : bool :=
  if list_eq_dec N.eq_dec a b then true else false.

(** ** ASCII character classes *)

Definition is_ascii (c : codepoint) : bool := (c <? 128)%N.

(** Python's whitespace below 128: TAB LF VT FF CR, FS GS RS US, SPACE. *)
Definition ascii_isspace (c : codepoint) : bool :=
  ((9 <=? c) && (c <=? 13) || (28 <=? c) && (c <=? 32))%N.

Definition ascii_isdigit (c : codepoint) : bool :=
  ((48 <=? c) && (c <=? 57))%N.

Definition ascii_lower (c : codepoint) : codepoint :=
  if ((65 <=? c) && (c <=? 90))%N then (c + 32)%N else c.

(** ** The Unicode tables of the interpreter

    [str.strip], [str.split], [str.isdigit] and [str.lower] consult the
    Unicode character database.  The database is an argument of the model;
    what is fixed is its ASCII part, and that no digit is whitespace. *)
Class Unicode := {
  char_isspace : codepoint -> bool;
  char_isdigit : codepoint -> bool;
  str_lower : str -> str;
  isspace_ascii : forall c, is_ascii c = true -> char_isspace c = ascii_isspace c;
  isdigit_ascii : forall c, is_ascii c = true -> char_isdigit c = ascii_isdigit c;
  lower_ascii : forall s, forallb is_ascii s = true -> str_lower s = map ascii_lower s;
  digit_not_space : forall c, char_isdigit c = true -> char_isspace c = false
}.

(** The database cut down to ASCII: it serves to run the model on
    ASCII inputs, where every database gives the same answers. *)
Definition ascii_only_isspace (c : codepoint) : bool := is_ascii c && ascii_isspace c.
Definition ascii_only_isdigit (c : codepoint) : bool := is_ascii c && ascii_isdigit c.

Definition ascii_only : Unicode.
Proof.
  refine {| char_isspace := ascii_only_isspace;
            char_isdigit := ascii_only_isdigit;
            str_lower := map ascii_lower |}.
  - intros c H. unfold ascii_only_isspace. now rewrite H.
  - intros c H. unfold ascii_only_isdigit. now rewrite H.
  - reflexivity.
  - intros c H. unfold ascii_only_isdigit, ascii_only_isspace in *.
    apply andb_true_iff in H. destruct H as [Ha Hd]. rewrite Ha. simpl.
    unfold ascii_isdigit in Hd. unfold ascii_isspace.
    apply andb_true_iff in Hd. destruct Hd as [H1 H2].
    apply N.leb_le in H1. apply N.leb_le in H2.
    apply orb_false_iff. split; apply andb_false_iff; right; apply N.leb_gt; lia.
Defined.

(* ================================================================== *)
(** * The string and list operations the scripts call                  *)
(* ================================================================== *)

Section Builtins.
Context {U : Unicode}.

(** [s.lstrip()], [s.rstrip()], [s.strip()]. *)
Fixpoint lstrip (s : str) : str :=
  match s with
  | c :: r => if char_isspace c then lstrip r else s
  | [] => []
  end.

Definition rstrip (s : str) : str := rev (lstrip (rev s)).

Definition strip (s : str) : str := rstrip (lstrip s).

(** [s.split()]: the maximal runs of non-whitespace, [word] being the
    run read so far, last character first. *)
Fixpoint split_words (word : str) (s : str) : list str :=
  match s with
  | [] => match word with [] => [] | _ => [rev word] end
  | c :: r =>
      if char_isspace c then
        match word with
        | [] => split_words [] r
        | _ => rev word :: split_words [] r
        end
      else split_words (c :: word) r
  end.

Definition split_whitespace (s : str) : list str := split_words [] s.

(** [s.isdigit()]: non-empty and digits only. *)
Definition isdigit (s : str) : bool :=
  match s with
  | [] => false
  | _ => forallb char_isdigit s
  end.

End Builtins.

(** [s.split(sep)] for a separator of one character. *)
Fixpoint split_char (sep : codepoint) (s : str) : list str :=
  match s with
  | [] => [[]]
  | c :: r =>
      if (c =? sep)%N then [] :: split_char sep r
      else match split_char sep r with
           | w :: ws => (c :: w) :: ws
           | [] => [[c]]
           end
  end.

(** [s.replace(old, new)] for [old] and [new] of one character. *)
Definition replace_char (old new : codepoint) (s : str) : str :=
  map (fun c => if (c =? old)%N then new else c) s.

(** [s.startswith(p)] and [s.endswith(p)]. *)
Fixpoint startswith (s p : str) : bool :=
  match p, s with
  | [], _ => true
  | _ :: _, [] => false
  | x :: p', c :: s' => (c =? x)%N && startswith s' p'
  end.

Definition endswith (s p : str) : bool := startswith (rev s) (rev p).

(** [sep.join(parts)]. *)
Fixpoint join (sep : str) (parts : list str) : str :=
  match parts with
  | [] => []
  | [p] => p
  | p :: rest => p ++ sep ++ join sep rest
  end.

(** Comparison of strings: code point by code point. *)
Fixpoint str_leb (a b : str) : bool :=
  match a, b with
  | [], _ => true
  | _ :: _, [] => false
  | x :: a', y :: b' =>
      if (x <? y)%N then true
      else if (x =? y)%N then str_leb a' b'
      else false
  end.

(** [sorted(l)] on strings.  The order is total and antisymmetric, so the
    result does not depend on the sorting algorithm; insertion is used. *)
Fixpoint insert_sorted (x : str) (l : list str) : list str :=
  match l with
  | [] => [x]
  | y :: r => if str_leb x y then x :: l else y :: insert_sorted x r
  end.

Fixpoint sorted (l : list str) : list str :=
  match l with
  | [] => []
  | x :: r => insert_sorted x (sorted r)
  end.

(** The index a slice bound stands for in a sequence of length [n]. *)
Definition slice_index (n : nat) (i : Z) : nat :=
  if (i <? 0)%Z then Z.to_nat (Z.of_nat n + i) else Nat.min (Z.to_nat i) n.

(** [l[:j]] and [l[i:j]]. *)
Definition slice_to {A} (l : list A) (j : Z) : list A :=
  firstn (slice_index (length l) j) l.

Definition slice {A} (l : list A) (i j : Z) : list A :=
  skipn (slice_index (length l) i) (firstn (slice_index (length l) j) l).

(** [range(n)]. *)
Definition range (n : nat) : list Z := map Z.of_nat (seq 0 n).

(** [base64.b64encode(data).decode("utf-8")] (RFC 4648, with padding). *)
Definition b64_char (i : N) : codepoint :=
  if (i <? 26)%N then (65 + i)%N
  else if (i <? 52)%N then (97 + (i - 26))%N
  else if (i <? 62)%N then (48 + (i - 52))%N
  else if (i =? 62)%N then 43%N else 47%N.

Definition bytes := list N.

Fixpoint b64encode (data : bytes) : str :=
  match data with
  | [] => []
  | [a] =>
      [b64_char (a / 4); b64_char ((a mod 4) * 16); 61; 61]%N
  | [a; b] =>
      [b64_char (a / 4); b64_char ((a mod 4) * 16 + b / 16);
       b64_char ((b mod 16) * 4); 61]%N
  | a :: b :: c :: r =>
      [b64_char (a / 4); b64_char ((a mod 4) * 16 + b / 16);
       b64_char ((b mod 16) * 4 + c / 64); b64_char (c mod 64)]%N
        ++ b64encode r
  end.

(** ** os.path (POSIX) *)

Definition slash : codepoint := 47%N.

(** [os.path.join(a, b)]. *)
Definition os_path_join (a b : str) : str :=
  if startswith b [slash] then b
  else if match a with [] => true | _ => endswith a [slash] end then a ++ b
  else a ++ [slash] ++ b.

(** [os.path.basename(p)]: what follows the last slash. *)
Definition os_path_basename (p : str) : str := last (split_char slash p) [].

(** [p[:p.rfind("/") + 1]]: the path up to its last slash, the slash
    included; empty when there is none. *)
Fixpoint upto_last_slash (p : str) : str :=
  match p with
  | [] => []
  | c :: r =>
      match upto_last_slash r with
      | [] => if (c =? slash)%N then [c] else []
      | head => c :: head
      end
  end.

Fixpoint lstrip_char (ch : codepoint) (s : str) : str :=
  match s with
  | c :: r => if (c =? ch)%N then lstrip_char ch r else s
  | [] => []
  end.

(** [s.rstrip(ch)] for one character. *)
Definition rstrip_char (ch : codepoint) (s : str) : str :=
  rev (lstrip_char ch (rev s)).

(** [os.path.dirname(p)]. *)
Definition os_path_dirname (p : str) : str :=
  let head := upto_last_slash p in
  if forallb (fun c => (c =? slash)%N) head then head
  else rstrip_char slash head.

(** A name as a directory lists it: no slash in it. *)
Definition file_name (f : str) : Prop := ~ In slash f.

(* ================================================================== *)
(** * Exceptions, the outside world and effects                        *)
(* ================================================================== *)

(** The exceptions the modelled calls raise; all derive from
    [Exception].  [exn_text] is [str(e)]. *)
Inductive exn_class := OSError | KeyError | IndexError | TypeError | ValueError.

Record exn := Exn { exn_kind : exn_class; exn_text : str }.

(** What a call comes to: a value, or an exception on its way up. *)
Inductive result (A : Type) : Type :=
| Ok (a : A)
| Raise (e : exn).
Arguments Ok {A} a.
Arguments Raise {A} e.

(** The operating system, as far as [os.path.exists], [os.listdir] and
    [open(p, "rb").read()] show it. *)
Record OS := {
  path_exists : str -> bool;
  listdir : str -> result (list str);
  read_file : str -> result bytes
}.

(** What one [requests.post] followed by [raise_for_status] and the
    subscripts on the JSON body comes to. *)
Inductive response :=
| Completion (content : str)
    (** 2xx, and the body holds choices[0].message.content *)
| HTTPError (status_code : Z) (text : str)
    (** [raise_for_status] raises HTTPError; [text] is [str(e)] *)
| RequestException (text : str)
    (** any other requests exception: connection, timeout, body not JSON *)
| Malformed (e : exn).
    (** 2xx, JSON without the expected keys: the subscripts raise [e] *)

(** Cells of a sheet as [pd.read_excel] yields them. *)
Inductive cell :=
| Empty
    (** NaN: no value, in a column of text or of numbers *)
| NaT
    (** no value, in a column of dates *)
| TextCell (s : str)
| Scalar (q : QArith_base.Q) (printed : str).
    (** any other scalar, a whole number, a float, a boolean or a
        timestamp: the value pandas compares it by (the number, 0 or
        1, the nanoseconds) and what [str] makes of it.  A key column
        that mixes timestamps with numbers, which pandas does not
        sort, is outside the model. *)

Record DataFrame := { columns : list str; rows : list (list cell) }.

(** A row of a frame: its labels and its cells. *)
Definition Series := list (str * cell).

Record Env := {
  os : OS;
  service : nat -> response;              (** the answer to the n-th request *)
  read_excel : str -> result DataFrame;   (** [pd.read_excel] *)
  series_str : Series -> str              (** [str] of a pandas Series *)
}.

(** What a run leaves behind, in order. *)
Inductive event :=
| Post (prompt : str) (images : list str) (max_tokens : Z)
| Sleep (seconds : Z).

Definition trace := list event.

Definition is_post (ev : event) : bool :=
  match ev with Post _ _ _ => true | Sleep _ => false end.

Definition posts (t : trace) : nat := length (filter is_post t).

Fixpoint sleeps (t : trace) : list Z :=
  match t with
  | [] => []
  | Sleep n :: r => n :: sleeps r
  | Post _ _ _ :: r => sleeps r
  end.

(** Effectful code: it starts from the trace so far and ends with a
    result and the longer trace; what happened before an exception
    stays in the trace. *)
Definition M (A : Type) : Type := trace -> result A * trace.

Definition ret {A} (a : A) : M A := fun t => (Ok a, t).

Definition raise {A} (e : exn) : M A := fun t => (Raise e, t).

Definition bind {A B} (m : M A) (k : A -> M B) : M B :=
  fun t => match m t with
           | (Ok a, t') => k a t'
           | (Raise e, t') => (Raise e, t')
           end.

(** try: [m] except Exception as e: [h e] *)
Definition try_except {A} (m : M A) (h : exn -> M A) : M A :=
  fun t => match m t with
           | (Ok a, t') => (Ok a, t')
           | (Raise e, t') => h e t'
           end.

Definition lift {A} (r : result A) : M A := fun t => (r, t).

Declare Scope py_scope.
Delimit Scope py_scope with py_m.
Notation "x <- m ;; k" := (bind m (fun x => k))
  (at level 61, m at next level, right associativity) : py_scope.
Notation "m ;;; k" := (bind m (fun _ => k))
  (at level 61, right associativity) : py_scope.

(** The same for code without effects. *)
Definition rbind {A B} (r : result A) (k : A -> result B) : result B :=
  match r with
  | Ok a => k a
  | Raise e => Raise e
  end.

(** [time.sleep(seconds)] *)
Definition time_sleep (seconds : Z) : M unit :=
  fun t => (Ok tt, t ++ [Sleep seconds]).

(** [requests.post(...)], [raise_for_status()] and the subscripts. *)
Definition requests_post (env : Env) (prompt : str) (images : list str)
    (max_tokens : Z) : M response :=
  fun t => (Ok (service env (posts t)), t ++ [Post prompt images max_tokens]).

(* ================================================================== *)
(** * The two scripts                                                  *)
(* ================================================================== *)

Inductive script := main_py | aktuell_py.

(** The missing sentinel. *)
Definition missing (v : script) : str :=
  match v with
  | main_py => py "Empty Cell"
  | aktuell_py => py "Leere Zelle"
  end.

(** What every error text of a script starts with. *)
Definition error_marker (v : script) : str :=
  match v with
  | main_py => py "Error:"
  | aktuell_py => py "❌"
  end.

Definition error_tagged (v : script) (text : str) : bool :=
  startswith text (error_marker v).

Definition api_error_text (v : script) : str :=
  match v with
  | main_py => py "Error: API error: "
  | aktuell_py => py "❌ API-Fehler: "
  end.

Definition connection_error_text (v : script) : str :=
  match v with
  | main_py => py "Error: Connection error: "
  | aktuell_py => py "❌ Verbindungsfehler: "
  end.

Definition aborted_text (v : script) : str :=
  match v with
  | main_py => py "Error: Aborted after too many failed attempts"
  | aktuell_py => py "❌ Abgebrochen nach zu vielen Fehlversuchen"
  end.

Definition no_image_text (v : script) : str :=
  match v with
  | main_py => py "Error: No valid image found"
  | aktuell_py => py "❌ Kein gültiges Bild gefunden"
  end.

Definition processing_error_text (v : script) : str :=
  match v with
  | main_py => py "Error: Processing error: "
  | aktuell_py => py "❌ Fehler: "
  end.

Definition MAX_IMAGES : Z := 3.
Definition MAX_TOKENS : Z := 1200.
Definition API_WAIT : Z := 10.

(* ================================================================== *)
(** * Value normaliser                                                 *)
(* ================================================================== *)

(** A raw value, by what [safe_value] can see of it: whether it is
    None, and what [str] makes of it. *)
Inductive value :=
| VNone
| VNaN                          (** float("nan"), an empty cell *)
| VStr (s : str)
| VObj (text : result str).     (** any other object, with its [__str__] *)

Definition py_str (val : value) : result str :=
  match val with
  | VNone => Ok (py "None")
  | VNaN => Ok (py "nan")
  | VStr s => Ok s
  | VObj text => text
  end.

(** [str(x)] for the scalar [x] of a cell. *)
Definition cell_str (c : cell) : str :=
  match c with
  | Empty => py "nan"
  | NaT => py "NaT"
  | TextCell s => s
  | Scalar _ printed => printed
  end.

(** The scalar of a cell as [safe_value] sees it. *)
Definition value_of_cell (c : cell) : value :=
  match c with
  | Empty => VNaN
  | TextCell s => VStr s
  | NaT | Scalar _ _ => VObj (Ok (cell_str c))
  end.

Section Normaliser.
Context {U : Unicode}.
Variable v : script.
Variable env : Env.

(** The last line of [safe_value]: the sentinel for an empty text and
    for "nan" in any letter case, the text itself otherwise. *)
Definition settle (s : str) : str :=
  if str_eqb s [] || str_eqb (str_lower s) (py "nan") then missing v else s.

Definition safe_value (val : value) : result str :=
  match val with
  | VNone => Ok (missing v)
  | _ =>
      match rbind (py_str val) (fun t => Ok (strip t)) with
      | Raise _ => Ok (missing v)
      | Ok s => Ok (settle s)
      end
  end.

(** What [row[label]] selects: the entries under the label. *)
Definition series_loc (row : Series) (label : str) : Series :=
  filter (fun lc => str_eqb (fst lc) label) row.

(** [row[colname_lower]] is the scalar of the cell when the label
    occurs once, and a Series of the cells when it occurs more often
    (two columns whose names differ in case or in white space fall
    together when the names are normalised). *)
Definition get_val (row : Series) (colname_lower : str) : result str :=
  match series_loc row colname_lower with
  | [] => Ok (missing v)
  | [(_, c)] => safe_value (value_of_cell c)
  | several => safe_value (VObj (Ok (series_str env several)))
  end.

End Normaliser.

(* ================================================================== *)
(** * Prompt builder                                                   *)
(* ================================================================== *)

Inductive field :=
| f_object_id | f_title | f_image_list | f_manufacturer | f_material
| f_dimensions | f_year | f_de_list_sentence | f_en_list_sentence.

(** A template line is made of literal text and replacement fields. *)
Inductive piece :=
| Text (s : str)
| Slot (f : field).

Notation "'T' s" := (Text (py s)) (at level 9, s at level 0, only parsing).
Notation "'Q'" := (Text dquote) (only parsing).

(** BASE_PROMPT_TEMPLATE of main.py and of aktuell.py, line by line. *)
Definition template_main_py : list (list piece) :=
  [ [];
    [T "You are a museum cataloguer for the Technisches Museum Berlin."];
    [T "Describe only what the images justify; be conservative; no speculation."];
    [T "The input includes metadata from an Excel row."];
    [T "If any field value equals the literal string "; Q; T "Empty Cell"; Q; T ", treat it as missing/absent. "];
    [];
    [T "Object ID: "; Slot f_object_id; T " "];
    [T "Title: "; Slot f_title; T " "];
    [T "Image List (local selection): "; Slot f_image_list; T " "];
    [T "Manufacturer: "; Slot f_manufacturer; T " "];
    [T "Material: "; Slot f_material; T " "];
    [T "Dimensions: "; Slot f_dimensions; T " "];
    [T "Year: "; Slot f_year; T " "];
    [];
    [T "Use title to choose the plain object type and function wording in Paragraph 1 if consistent with the images. "];
    [T "Facts from manufacturer, material, dimensions, year are authoritative list data and must be included in Paragraph 2 as a clearly labeled sentence beginning with „Angaben laut Liste:“ (German) and “According to the list:” (English). "];
    [T "Copy their values verbatim; do not rephrase. "];
    [T "Never invent missing values. If a field is absent or equals "; Q; T "Empty Cell"; Q; T ", omit it entirely from that list sentence. "];
    [T "Do not state date, maker, materials, or dimensions as if they are visibly inscribed. For visible inscriptions, transcribe verbatim in quotes; use […] for illegible parts. "];
    [T "Ban hedging/guessing: avoid vermutlich, wahrscheinlich, wohl, offenbar, anscheinend, möglicherweise, könnte, dürfte, early/late, typical, domestic, etc. "];
    [];
    [T "OUTPUT (exactly three parts, in this order) "];
    [T "One sentence (≤35 Wörter) suitable for a label: Objekttyp, Funktion/Zweck, sichtbares Material/Finish, datierungslos. Do not include maker/date/provenance here unless they are visibly inscribed; Excel facts remain only in the “Angaben laut Liste” sentence within the description."];
    [];
    [T "Write 3 short paragraphs in German, then provide an English translation with the same constraints. The German paragraphs should have one title above the first paragraph called "; Q; T "Deutsche Beschreibung"; Q; T ". Then provide the EN translation of the title mirroring the placement used for the German title."];
    [T "Content of the paragraph 1: Name the object type in plain words and its function/purpose (use title if it matches the images). "];
    [T "Content of the paragraph 2: Strictly image-based description: form and construction (shape, handles, openings, moving parts, connectors); colours/finish; materials only if visually evident; transcribe any visible labels/marks verbatim (use […] for gaps). At the end of Paragraph 2, add ONE sentence with Excel facts using EXACT formatting, but include only the fields that exist (omit any that are "; Q; T "Empty Cell"; Q; T "): "];
    [T "Angaben laut Liste: "; Slot f_de_list_sentence; T ". "];
    [T "Content of the paragraph 3: Condition notes only (e.g., Kratzer, Korrosion, Abplatzungen, fehlende Teile). No usage scenarios or history. Then provide the EN translation mirroring the structure above. In the English version of Paragraph 2, reproduce the list sentence as: According to the list: "; Slot f_en_list_sentence; T "."];
    [] ].

Definition template_aktuell_py : list (list piece) :=
  [ [];
    [T "You are a museum cataloguer for the Technisches Museum Berlin. Describe only what the images justify; be conservative; no speculation."];
    [T "The input includes metadata from an Excel row. If any field value equals the literal string "; Q; T "Leere Zelle"; Q; T ", treat it as missing/absent."];
    [];
    [T "Object ID: "; Slot f_object_id];
    [T "Title: "; Slot f_title];
    [T "Image List (local selection): "; Slot f_image_list];
    [T "Manufacturer: "; Slot f_manufacturer];
    [T "Material: "; Slot f_material];
    [T "Dimensions: "; Slot f_dimensions];
    [T "Year: "; Slot f_year];
    [];
    [T "Use title to choose the plain object type and function wording in Paragraph 1 if consistent with the images."];
    [T "Facts from manufacturer, material, dimensions, year are authoritative list data and must be included in Paragraph 2 as a clearly labeled sentence beginning with „Angaben laut Liste:“ (German) and “According to the list:” (English)."];
    [T "Copy their values verbatim; do not rephrase."];
    [T "Never invent missing values. If a field is absent or equals "; Q; T "Leere Zelle"; Q; T ", omit it entirely from that list sentence."];
    [T "Do not state date, maker, materials, or dimensions as if they were seen on the object unless they are visibly inscribed. For visible inscriptions, transcribe verbatim in quotes; use […] for illegible parts."];
    [T "Ban hedging/guessing: avoid vermutlich, wahrscheinlich, wohl, offenbar, anscheinend, möglicherweise, könnte, dürfte, early/late, typical, domestic, etc."];
    [];
    [T "OUTPUT (exactly two blocks, in this order)"];
    [];
    [T "1) CATALOGUE TEXT (DE → EN)"];
    [T "Write 2–3 short paragraphs in German, then provide an English translation with the same constraints."];
    [];
    [T "Paragraph 1 (DE): Name the object type in plain words and its function/purpose (use title if it matches the images)."];
    [];
    [T "Paragraph 2 (DE): Strictly image-based description: form and construction (shape, handles, openings, moving parts, connectors); colours/finish; materials only if visually evident; transcribe any visible labels/marks verbatim (use […] for gaps)."];
    [T "At the end of Paragraph 2 (DE), add ONE sentence with Excel facts using EXACT formatting, but include only the fields that exist (omit any that are "; Q; T "Leere Zelle"; Q; T "):"];
    [T "Angaben laut Liste: "; Slot f_de_list_sentence; T "."];
    [];
    [T "Paragraph 3 (DE): Condition notes only (e.g., Kratzer, Korrosion, Abplatzungen, fehlende Teile). No usage scenarios or history."];
    [];
    [T "Then provide the EN translation mirroring the structure above."];
    [T "In the English version of Paragraph 2, reproduce the list sentence as:"];
    [T "According to the list: "; Slot f_en_list_sentence; T "."];
    [];
    [T "2) CAPTION (German)"];
    [T "One sentence (≤35 Wörter) suitable for a label: Objekttyp, Funktion/Zweck, sichtbares Material/Finish, datierungslos."];
    [T "Do not include maker/date/provenance here unless they are visibly inscribed; Excel facts remain only in the “Angaben laut Liste” sentence within the description."];
    [] ].

Definition BASE_PROMPT_TEMPLATE (v : script) : list (list piece) :=
  match v with
  | main_py => template_main_py
  | aktuell_py => template_aktuell_py
  end.

Definition newline : str := [10%N].

(** [str.format] on the template: every field is put in as it is. *)
Definition format (template : list (list piece)) (fields : field -> str) : str :=
  join newline
    (map (fun line =>
            concat (map (fun p => match p with
                                  | Text s => s
                                  | Slot f => fields f
                                  end) line))
         template).

Section PromptBuilder.
Context {U : Unicode}.
Variable v : script.
Variable env : Env.

(** [parts.append(label + value)] when the value is not the sentinel. *)
Definition append_clause (parts : list str) (label value : str) : list str :=
  if negb (str_eqb value (missing v)) then parts ++ [label ++ value] else parts.

Definition build_list_sentences (manufacturer material dimensions year : str)
  : str * str :=
  let parts_de := [] in
  let parts_en := [] in
  let parts_de := append_clause parts_de (py "Hersteller: ") manufacturer in
  let parts_en := append_clause parts_en (py "Manufacturer: ") manufacturer in
  let parts_de := append_clause parts_de (py "Material: ") material in
  let parts_en := append_clause parts_en (py "Material: ") material in
  let parts_de := append_clause parts_de (py "Maße: ") dimensions in
  let parts_en := append_clause parts_en (py "Dimensions: ") dimensions in
  let parts_de := append_clause parts_de (py "Jahr: ") year in
  let parts_en := append_clause parts_en (py "Year: ") year in
  (join (py "; ") parts_de, join (py "; ") parts_en).

Definition build_prompt (row : Series) (image_paths : list str) (object_id : str)
  : result str :=
  let object_id := strip object_id in
  let object_id := match object_id with [] => missing v | _ => object_id end in
  rbind (get_val v env row (py "t10")) (fun title =>
  rbind (get_val v env row (py "t2")) (fun manufacturer =>
  rbind (get_val v env row (py "t3")) (fun material =>
  rbind (get_val v env row (py "t5")) (fun dimensions =>
  rbind (get_val v env row (py "t14")) (fun year =>
  let image_list :=
    match image_paths with
    | [] => missing v
    | _ => join (py ", ") (map os_path_basename image_paths)
    end in
  let '(de_list_sentence, en_list_sentence) :=
    build_list_sentences manufacturer material dimensions year in
  Ok (format (BASE_PROMPT_TEMPLATE v)
        (fun f => match f with
                  | f_object_id => object_id
                  | f_title => title
                  | f_image_list => image_list
                  | f_manufacturer => manufacturer
                  | f_material => material
                  | f_dimensions => dimensions
                  | f_year => year
                  | f_de_list_sentence => de_list_sentence
                  | f_en_list_sentence => en_list_sentence
                  end))))))).

End PromptBuilder.

(* ================================================================== *)
(** * Generation client                                                *)
(* ================================================================== *)

Definition encode_image (o : OS) (image_path : str) : result str :=
  rbind (read_file o image_path) (fun data => Ok (b64encode data)).

(** The loop that fills [image_contents] with data URLs. *)
Fixpoint image_contents (o : OS) (image_paths : list str) : result (list str) :=
  match image_paths with
  | [] => Ok []
  | path :: r =>
      rbind (encode_image o path) (fun base64_image =>
      rbind (image_contents o r) (fun more =>
      Ok ((py "data:image/jpeg;base64," ++ base64_image) :: more)))
  end.

Section GenerationClient.
Variable v : script.
Variable env : Env.
Local Open Scope py_scope.

(** for attempt in [todo]: ...; after the loop: the abort text. *)
Fixpoint attempts (prompt_text : str) (images : list str) (max_tokens : Z)
    (todo : list Z) : M str :=
  match todo with
  | [] => ret (aborted_text v)
  | attempt :: rest =>
      r <- requests_post env prompt_text images max_tokens ;;
      match r with
      | Completion content => ret content
      | HTTPError status text =>
          if (status =? 429)%Z then
            let wait := (5 * (attempt + 1))%Z in
            time_sleep wait ;;;
            attempts prompt_text images max_tokens rest
          else ret (api_error_text v ++ text)
      | RequestException text => ret (connection_error_text v ++ text)
      | Malformed e => raise e
      end
  end.

Definition generate_catalog_text (image_paths : list str) (prompt_text : str)
    (max_tokens : Z) : M str :=
  images <- lift (image_contents (os env) image_paths) ;;
  attempts prompt_text images max_tokens (range 3).

End GenerationClient.

(* ================================================================== *)
(** * Image locator                                                    *)
(* ================================================================== *)

Definition hyphen : codepoint := 45%N.

Definition image_suffixes : list str := [py ".jpg"; py ".jpeg"; py ".png"].

Section ImageLocator.
Context {U : Unicode}.
Variable o : OS.

(** next((p for p in object_id.split("/") if p.isdigit() and len(p) == 4), None) *)
Definition year_of (object_id : str) : option str :=
  find (fun p => isdigit p && (length p =? 4)) (split_char slash object_id).

(** object_id.replace("/", "-").split()[0] *)
Definition prefix_of (object_id : str) : result str :=
  match split_whitespace (replace_char slash hyphen object_id) with
  | w :: _ => Ok w
  | [] => Raise (Exn IndexError (py "list index out of range"))
  end.

Definition is_image_name (f : str) : bool :=
  existsb (endswith (str_lower f)) image_suffixes.

Definition find_images_for_object (base_folder object_id : str) (max_images : Z)
  : result (list str) :=
  match year_of object_id with
  | None | Some [] => Ok []
  | Some year =>
      let folder := os_path_join base_folder year in
      if negb (path_exists o folder) then Ok []
      else
        rbind (prefix_of object_id) (fun prefix =>
        rbind (listdir o folder) (fun entries =>
        let candidates := filter is_image_name entries in
        let matches := sorted (filter (fun f => startswith f prefix) candidates) in
        Ok (map (os_path_join folder) (slice_to matches max_images))))
  end.

End ImageLocator.

(* ================================================================== *)
(** * Batch orchestrator                                               *)
(* ================================================================== *)

Record ResultRecord := {
  Source : str;        (** "Source" / "Quelle" *)
  ObjectID : str;      (** "Object ID" / "Objekt-ID" *)
  Images : str;        (** "Images" / "Bilder" *)
  Description : str    (** "Description" / "Katalogtext" *)
}.

(** Whether a cell holds a key: with dropna=True the empty cells do not. *)
Definition is_key (c : cell) : bool :=
  match c with
  | Empty | NaT => false
  | TextCell _ | Scalar _ _ => true
  end.

(** Whether two cells hold the same key. *)
Definition key_eqb (a b : cell) : bool :=
  match a, b with
  | TextCell s, TextCell u => str_eqb s u
  | Scalar q _, Scalar r _ => QArith_base.Qeq_bool q r
  | _, _ => false
  end.

(** The order pandas sorts keys by: scalars that are no text by their
    value, before texts by their code points. *)
Definition key_leb (a b : cell) : bool :=
  match a, b with
  | Scalar q _, Scalar r _ => QArith_base.Qle_bool q r
  | Scalar _ _, _ => true
  | TextCell _, Scalar _ _ => false
  | TextCell s, TextCell u => str_leb s u
  | TextCell _, _ => true
  | _, Scalar _ _ => false
  | _, TextCell _ => false
  | _, _ => true
  end.

(** The keys of a column in the order in which they first appear, each
    once. *)
Fixpoint first_seen (seen : list cell) (keys : list cell) : list cell :=
  match keys with
  | [] => []
  | k :: r =>
      if existsb (key_eqb k) seen then first_seen seen r
      else k :: first_seen (k :: seen) r
  end.

(** Sorting keys, by insertion. *)
Fixpoint insert_key (x : cell) (l : list cell) : list cell :=
  match l with
  | [] => [x]
  | y :: r => if key_leb x y then x :: l else y :: insert_key x r
  end.

Fixpoint sort_keys (l : list cell) : list cell :=
  match l with
  | [] => []
  | x :: r => insert_key x (sort_keys r)
  end.

(** The positions at which a label occurs. *)
Fixpoint positions (label : str) (i : nat) (labels : list str) : list nat :=
  match labels with
  | [] => []
  | l :: r =>
      if str_eqb l label then i :: positions label (S i) r
      else positions label (S i) r
  end.

(** Iterating [df.groupby(column)], pandas' defaults being sort=True and
    dropna=True: one (key, group) pair per distinct key, the keys
    ascending; rows with an empty key cell belong to no group; a
    group keeps its rows in the order of the frame.  A label that
    occurs more than once is refused. *)
Definition groupby (df : DataFrame) (column : str)
  : result (list (cell * list (list cell))) :=
  match positions column 0 (columns df) with
  | [] => Raise (Exn KeyError (py "'" ++ column ++ py "'"))
  | [i] =>
      let key (row : list cell) := nth i row Empty in
      let keys := sort_keys (first_seen [] (filter is_key (map key (rows df)))) in
      Ok (map (fun k => (k, filter (fun row => key_eqb k (key row)) (rows df))) keys)
  | _ => Raise (Exn ValueError
                  (py "Grouper for '" ++ column ++ py "' not 1-dimensional"))
  end.

Definition column_missing_text (v : script) : str :=
  match v with
  | main_py => py "Error: Expected column 't1' not found (after normalization)!"
  | aktuell_py => py "❌ Erwartete Spalte 't1' fehlt (nach Normalisierung)!"
  end.

Section Orchestrator.
Context {U : Unicode}.
Variable v : script.
Variable env : Env.
Local Open Scope py_scope.

(** str(c).strip().lower() *)
Definition normalise_label (c : str) : str := str_lower (strip c).

(** What goes under "Object ID": aktuell.py writes the sentinel for
    an empty identifier. *)
Definition shown_id (object_id : str) : str :=
  match v, object_id with
  | aktuell_py, [] => missing v
  | _, _ => object_id
  end.

Definition no_image_record (excel_path object_id : str) : ResultRecord :=
  {| Source := os_path_basename excel_path;
     ObjectID := shown_id object_id;
     Images := [];
     Description := no_image_text v |}.

Definition error_record (excel_path object_id : str) (e : exn) : ResultRecord :=
  {| Source := os_path_basename excel_path;
     ObjectID := shown_id object_id;
     Images := [];
     Description := processing_error_text v ++ exn_text e |}.

(** group.iloc[0] *)
Definition iloc0 (labels : list str) (group : list (list cell)) : result Series :=
  match group with
  | row :: _ => Ok (combine labels row)
  | [] => Raise (Exn IndexError (py "single positional indexer is out-of-bounds"))
  end.

(** The try block of the loop, up to the record it appends.  After
    [results.append] the block only sleeps, which does not raise, so
    the record is handed back at the end. *)
Definition try_block (excel_path base_folder : str) (labels : list str)
    (key : str) (group : list (list cell)) : M ResultRecord :=
  let object_id := strip key in
  image_paths <-
    lift (find_images_for_object (os env) base_folder object_id MAX_IMAGES) ;;
  match image_paths with
  | [] => ret (no_image_record excel_path object_id)
  | _ =>
      first_row <- lift (iloc0 labels group) ;;
      let first_row := map (fun lc => (normalise_label (fst lc), snd lc)) first_row in
      prompt <- lift (build_prompt v env first_row image_paths object_id) ;;
      catalog_text <- generate_catalog_text v env image_paths prompt MAX_TOKENS ;;
      time_sleep API_WAIT ;;;
      ret {| Source := os_path_basename excel_path;
             ObjectID := shown_id object_id;
             Images := join (py ", ") (map os_path_basename image_paths);
             Description := catalog_text |}
  end.

(** One turn of the loop: the try block and its except clause. *)
Definition one_object (excel_path base_folder : str) (labels : list str)
    (key : str) (group : list (list cell)) : M ResultRecord :=
  try_except (try_block excel_path base_folder labels key group)
             (fun e => ret (error_record excel_path (strip key) e)).

(** for i, (object_id, group) in enumerate(grouped), from index [i] on *)
Fixpoint for_objects (excel_path base_folder : str) (labels : list str)
    (max_objects : Z) (i : Z) (grouped : list (str * list (list cell)))
    (results : list ResultRecord) : M (list ResultRecord) :=
  match grouped with
  | [] => ret results
  | (key, group) :: rest =>
      if (i >=? max_objects)%Z then ret results
      else
        r <- one_object excel_path base_folder labels key group ;;
        for_objects excel_path base_folder labels max_objects (i + 1) rest
                    (results ++ [r])
  end.

(** The loop is handed [str(object_id)] for the key [object_id] of a
    group: the try block takes it first, and on a key it cannot
    raise. *)
Definition process_excel (excel_path base_folder : str)
    (row_start_1_based row_end_1_based max_objects : Z) : M (list ResultRecord) :=
  df <- lift (read_excel env excel_path) ;;
  let labels := map normalise_label (columns df) in
  let df := {| columns := labels;
               rows := slice (rows df) (row_start_1_based - 1) row_end_1_based |} in
  if negb (existsb (str_eqb (py "t1")) (columns df)) then
    raise (Exn ValueError (column_missing_text v))
  else
    grouped <- lift (groupby df (py "t1")) ;;
    for_objects excel_path base_folder labels max_objects 0
                (map (fun kg => (cell_str (fst kg), snd kg)) grouped) [].

End Orchestrator.

(* ================================================================== *)
(** * Notions the statements use                                     *)
(* ================================================================== *)

(** The order [sorted] sorts by. *)
Definition str_le (a b : str) : Prop := str_leb a b = true.

(** The facts sentence as the specification words it: of the labelled
    fields, in their order, those that are not the sentinel, each as
    label and value, joined with "; ". *)
Definition facts_sentence (v : script) (fields : list (str * str)) : str :=
  join (py "; ")
    (map (fun lv => fst lv ++ snd lv)
         (filter (fun lv => negb (str_eqb (snd lv) (missing v))) fields)).

Definition german_fields (manufacturer material dimensions year : str) :=
  [(py "Hersteller: ", manufacturer); (py "Material: ", material);
   (py "Maße: ", dimensions); (py "Jahr: ", year)].

Definition english_fields (manufacturer material dimensions year : str) :=
  [(py "Manufacturer: ", manufacturer); (py "Material: ", material);
   (py "Dimensions: ", dimensions); (py "Year: ", year)].

(** Whether an answer is the rate-limit answer (status 429). *)
Definition is_rate_limit (r : response) : bool :=
  match r with
  | HTTPError status _ => (status =? 429)%Z
  | _ => false
  end.

(** What [k] rate-limited attempts leave in the trace: the request [P]
    and the wait after it, attempt by attempt. *)
Definition retries (P : event) (k : nat) : trace :=
  flat_map (fun n => [P; Sleep (5 * Z.of_nat (S n))]) (seq 0 k).

Section Batch.
Context {U : Unicode}.
Variable v : script.
Variable env : Env.
Variables (excel_path base_folder : str) (labels : list str).

(** [batch objects t records t']: from the trace [t] the objects are
    worked through one after the other and leave [records] and the
    trace [t'].  An object whose try block raises leaves the error
    record, and the next object starts where the failed one stopped. *)
Inductive batch :
  list (str * list (list cell)) -> trace -> list ResultRecord -> trace -> Prop :=
| batch_end t : batch [] t [] t
| batch_done key group rest t r t1 records t2 :
    try_block v env excel_path base_folder labels key group t = (Ok r, t1) ->
    batch rest t1 records t2 ->
    batch ((key, group) :: rest) t (r :: records) t2
| batch_isolated key group rest t e t1 records t2 :
    try_block v env excel_path base_folder labels key group t = (Raise e, t1) ->
    batch rest t1 records t2 ->
    batch ((key, group) :: rest) t
          (error_record v excel_path (strip key) e :: records) t2.

End Batch.



(* ================================================================== *)
(** * Sample worlds                                                    *)
(* ================================================================== *)

Definition lookup {A} (k : str) (l : list (str * A)) : option A :=
  match find (fun kv => str_eqb (fst kv) k) l with
  | Some kv => Some (snd kv)
  | None => None
  end.

(** An operating system with the given directories and files. *)
Definition os_of (dirs : list (str * list str)) (files : list (str * bytes)) : OS :=
  {| path_exists := fun p =>
       match lookup p dirs, lookup p files with
       | None, None => false
       | _, _ => true
       end;
     listdir := fun p =>
       match lookup p dirs, lookup p files with
       | Some entries, _ => Ok entries
       | None, Some _ => Raise (Exn OSError (py "[Errno 20] Not a directory"))
       | None, None => Raise (Exn OSError (py "[Errno 2] No such file or directory"))
       end;
     read_file := fun p =>
       match lookup p files, lookup p dirs with
       | Some data, _ => Ok data
       | None, Some _ => Raise (Exn OSError (py "[Errno 21] Is a directory"))
       | None, None => Raise (Exn OSError (py "[Errno 2] No such file or directory"))
       end |}.

(** A plain rendering of a Series, one line per entry, for the sample
    worlds. *)
Definition plain_series_str (entries : Series) : str :=
  join newline (map (fun lc => fst lc ++ py "    " ++ cell_str (snd lc)) entries).

(** The folder of the year 2019 with four pictures of AK-2019-001. *)
Definition pictures_2019 : list str :=
  [py "AK-2019-001_a.jpg"; py "AK-2019-001_b.jpg";
   py "AK-2019-001_c.jpg"; py "AK-2019-001_d.jpg"].

Definition os_2019 : OS :=
  os_of [(py "Objektbilder", [py "2019"]); (py "Objektbilder/2019", pictures_2019)]
        (map (fun f => (os_path_join (py "Objektbilder/2019") f, [255; 216; 255]%N))
             pictures_2019).

(** The same folder listed in another order, with a picture of
    another object and a file that is no picture. *)
Definition os_2019_reversed : OS :=
  os_of [(py "Objektbilder/2019",
          [py "AK-2019-001_d.jpg"; py "AK-2019-001_c.jpg"; py "notes.txt";
           py "AK-2019-001_b.jpg"; py "AK-2019-002_a.jpg"; py "AK-2019-001_a.jpg"])]
        [].




(** A sheet of three objects with a picture each, and a service whose
    second answer lacks the key the client reads. *)
Definition three_objects : DataFrame :=
  {| columns := [py " T1"; py "T10"; py "T2 "];
     rows := [[TextCell (py "AK/2019/001"); TextCell (py "Telefon"); TextCell (py "AEG")];
              [TextCell (py "AK/2019/002"); TextCell (py "Radio"); Empty];
              [TextCell (py "AK/2020/003"); TextCell (py "Lampe"); TextCell (py "nan")]] |}.

Definition os_three : OS :=
  os_of [(py "Objektbilder/2019", [py "AK-2019-002_a.jpg"; py "AK-2019-001_a.jpg"]);
         (py "Objektbilder/2020", [py "AK-2020-003_a.PNG"; py "notes.txt"])]
        [(py "Objektbilder/2019/AK-2019-001_a.jpg", [255; 216; 255]%N);
         (py "Objektbilder/2019/AK-2019-002_a.jpg", [255; 216; 255]%N);
         (py "Objektbilder/2020/AK-2020-003_a.PNG", [137; 80; 78; 71]%N)].

Definition second_answer_malformed (n : nat) : response :=
  match n with
  | 0 => Completion (py "Ein Telefon.")
  | 1 => Malformed (Exn KeyError (py "'choices'"))
  | _ => Completion (py "Eine Lampe.")
  end.

Definition env_three : Env :=
  {| os := os_three;
     service := second_answer_malformed;
     read_excel := fun _ => Ok three_objects;
     series_str := plain_series_str |}.

(** A service that answers 429 to the first [k] requests. *)
Definition rate_limited_first (k : nat) (n : nat) : response :=
  if n <? k then HTTPError 429 (py "429 Client Error: Too Many Requests")
  else Completion (py "Ein Telefon.").

Definition env_rate_limited (k : nat) : Env :=
  {| os := os_2019;
     service := rate_limited_first k;
     read_excel := fun _ => Ok three_objects;
     series_str := plain_series_str |}.



(* ================================================================== *)
(** * Concrete runs of the operations                               *)
(* ================================================================== *)

Example utf8_sample : py "Maße ✓" = [77; 97; 223; 101; 32; 10003]%N.
Proof. reflexivity. Qed.

Example b64_samples :
  b64encode (py "foobar") = py "Zm9vYmFy" /\ b64encode (py "fooba") = py "Zm9vYmE="
  /\ b64encode (py "foob") = py "Zm9vYg==" /\ b64encode [255; 254]%N = py "//4=".
Proof. repeat split; reflexivity. Qed.

Example split_samples :
  split_char slash (py "AK/2019-001") = [py "AK"; py "2019-001"]
  /\ split_char slash (py "/a//") = [[]; py "a"; []; []]
  /\ split_whitespace (U := ascii_only) (py "  ab  c ") = [py "ab"; py "c"]
  /\ strip (U := ascii_only) (py "  a b ") = py "a b"
  /\ slice [1; 2; 3; 4; 5] 1 3 = [2; 3] /\ slice_to [1; 2; 3] (-1) = [1; 2]
  /\ sorted [py "b"; py "a"; py "B"; py "ab"] = [py "B"; py "a"; py "ab"; py "b"]
  /\ os_path_join (py "Objektbilder") (py "2019") = py "Objektbilder/2019"
  /\ os_path_basename (py "Objektbilder/2019/x.jpg") = py "x.jpg".
Proof. repeat split; reflexivity. Qed.

(* ================================================================== *)
(** * Facts about strings                                           *)
(* ================================================================== *)

Lemma str_eqb_eq (a b : str) : str_eqb a b = true <-> a = b.
Proof.
  unfold str_eqb. destruct (list_eq_dec N.eq_dec a b); split; congruence.
Qed.

Lemma str_eqb_neq (a b : str) : str_eqb a b = false <-> a <> b.
Proof.
  unfold str_eqb. destruct (list_eq_dec N.eq_dec a b); split; congruence.
Qed.

Lemma str_eqb_refl (a : str) : str_eqb a a = true.
Proof. now apply str_eqb_eq. Qed.

Section StripFacts.
Context {U : Unicode}.

Lemma lstrip_fixed c r : char_isspace c = false -> lstrip (c :: r) = c :: r.
Proof. intros H. simpl. now rewrite H. Qed.

Lemma lstrip_head s : lstrip s = [] \/ exists c r, lstrip s = c :: r /\ char_isspace c = false.
Proof.
  induction s as [|c r IH]; simpl.
  - now left.
  - destruct (char_isspace c) eqn:E.
    + exact IH.
    + right. now exists c, r.
Qed.

Lemma lstrip_idem s : lstrip (lstrip s) = lstrip s.
Proof.
  destruct (lstrip_head s) as [H | (c & r & H & Hc)]; rewrite H.
  - reflexivity.
  - now apply lstrip_fixed.
Qed.

Lemma lstrip_spaces s : forallb char_isspace s = true -> lstrip s = [].
Proof.
  induction s as [|c r IH]; simpl; intros H.
  - reflexivity.
  - apply andb_true_iff in H. destruct H as [Hc Hr]. rewrite Hc. auto.
Qed.

(** A string that ends in a character that is no whitespace keeps it. *)
Lemma lstrip_keeps_last u c :
  char_isspace c = false -> exists w, lstrip (u ++ [c]) = w ++ [c].
Proof.
  intros Hc. induction u as [|a u IH]; simpl.
  - rewrite Hc. now exists [].
  - destruct (char_isspace a).
    + exact IH.
    + now exists (a :: u).
Qed.

Lemma rstrip_idem s : rstrip (rstrip s) = rstrip s.
Proof. unfold rstrip. now rewrite rev_involutive, lstrip_idem. Qed.

Lemma rstrip_nil : rstrip [] = [].
Proof. reflexivity. Qed.

Lemma lstrip_rstrip_lstrip s : lstrip (rstrip (lstrip s)) = rstrip (lstrip s).
Proof.
  destruct (lstrip_head s) as [H | (c & r & H & Hc)]; rewrite H.
  - reflexivity.
  - unfold rstrip. simpl rev.
    destruct (lstrip_keeps_last (rev r) c Hc) as [w Hw]. rewrite Hw.
    rewrite rev_app_distr. simpl. now rewrite Hc.
Qed.

Lemma strip_idem s : strip (strip s) = strip s.
Proof. unfold strip. now rewrite lstrip_rstrip_lstrip, rstrip_idem. Qed.

Lemma strip_spaces s : forallb char_isspace s = true -> strip s = [].
Proof. intros H. unfold strip. now rewrite (lstrip_spaces s H). Qed.

End StripFacts.

(** ** On ASCII text every database agrees with the ASCII one *)

Section AsciiAgreement.
Context {U : Unicode}.

Lemma forallb_rev {A} (f : A -> bool) l : forallb f (rev l) = forallb f l.
Proof.
  induction l as [|a l IH]; simpl.
  - reflexivity.
  - rewrite forallb_app, IH. simpl. rewrite andb_true_r. apply andb_comm.
Qed.

Lemma isspace_agree c :
  is_ascii c = true -> char_isspace c = char_isspace (Unicode := ascii_only) c.
Proof.
  intros H. rewrite isspace_ascii by exact H.
  simpl. unfold ascii_only_isspace. now rewrite H.
Qed.

Lemma isdigit_agree c :
  is_ascii c = true -> char_isdigit c = char_isdigit (Unicode := ascii_only) c.
Proof.
  intros H. rewrite isdigit_ascii by exact H.
  simpl. unfold ascii_only_isdigit. now rewrite H.
Qed.

Lemma lower_agree s :
  forallb is_ascii s = true -> str_lower s = str_lower (Unicode := ascii_only) s.
Proof. intros H. now rewrite lower_ascii. Qed.

Lemma lstrip_agree s :
  forallb is_ascii s = true -> lstrip s = lstrip (U := ascii_only) s.
Proof.
  induction s as [|c r IH]; simpl; intros H.
  - reflexivity.
  - apply andb_true_iff in H. destruct H as [Hc Hr].
    rewrite (isspace_agree c Hc). simpl. now rewrite IH.
Qed.

Lemma lstrip_ascii s : forallb is_ascii s = true -> forallb is_ascii (lstrip s) = true.
Proof.
  induction s as [|c r IH]; simpl; intros H.
  - reflexivity.
  - destruct (char_isspace c).
    + apply andb_true_iff in H. now apply IH.
    + exact H.
Qed.

Lemma strip_agree s :
  forallb is_ascii s = true -> strip s = strip (U := ascii_only) s.
Proof.
  intros H. unfold strip, rstrip.
  rewrite <- (lstrip_agree s H).
  rewrite lstrip_agree; [reflexivity|].
  rewrite forallb_rev. now apply lstrip_ascii.
Qed.

Lemma split_words_agree s : forall word,
  forallb is_ascii s = true ->
  split_words word s = split_words (U := ascii_only) word s.
Proof.
  induction s as [|c r IH]; simpl; intros word H.
  - reflexivity.
  - apply andb_true_iff in H. destruct H as [Hc Hr].
    rewrite (isspace_agree c Hc). simpl.
    destruct (ascii_only_isspace c); destruct word; now rewrite ?IH.
Qed.

Lemma isdigit_str_agree s :
  forallb is_ascii s = true -> isdigit s = isdigit (U := ascii_only) s.
Proof.
  intros H. unfold isdigit. destruct s as [|c r]; [reflexivity|].
  revert H. generalize (c :: r). clear. intros s.
  induction s as [|a s IH]; simpl; intros H.
  - reflexivity.
  - apply andb_true_iff in H. destruct H as [Ha Hs].
    rewrite (isdigit_agree a Ha). simpl. now rewrite IH.
Qed.

End AsciiAgreement.

(* ================================================================== *)
(** * Value normaliser: contract and idempotence                       *)
(* ================================================================== *)

Lemma missing_ascii v : forallb is_ascii (missing v) = true.
Proof. destruct v; reflexivity. Qed.

Section NormaliserFacts.
Context {U : Unicode}.
Variable v : script.

Lemma strip_missing : strip (missing v) = missing v.
Proof. rewrite strip_agree by apply missing_ascii. destruct v; reflexivity. Qed.

Lemma missing_not_empty : missing v <> [].
Proof. destruct v; discriminate. Qed.

Lemma missing_not_nan : str_lower (missing v) <> py "nan".
Proof. rewrite lower_ascii by apply missing_ascii. destruct v; discriminate. Qed.

Lemma settle_kept s : s <> [] -> str_lower s <> py "nan" -> settle v s = s.
Proof.
  intros H1 H2. unfold settle.
  apply str_eqb_neq in H1. apply str_eqb_neq in H2. now rewrite H1, H2.
Qed.

Lemma settle_empty : settle v [] = missing v.
Proof. reflexivity. Qed.

Lemma settle_nan s : str_lower s = py "nan" -> settle v s = missing v.
Proof.
  intros H. unfold settle. apply str_eqb_eq in H. rewrite H. now rewrite orb_true_r.
Qed.

Lemma settle_cases s :
  settle v s = missing v \/ (settle v s = s /\ s <> [] /\ str_lower s <> py "nan").
Proof.
  unfold settle.
  destruct (str_eqb s []) eqn:E1; [now left|].
  destruct (str_eqb (str_lower s) (py "nan")) eqn:E2; [now left|].
  right. simpl. repeat split.
  - now apply str_eqb_neq.
  - now apply str_eqb_neq.
Qed.

Lemma safe_value_text val t :
  val <> VNone -> py_str val = Ok t -> safe_value v val = Ok (settle v (strip t)).
Proof.
  intros Hn Ht. unfold safe_value.
  destruct val; try congruence; rewrite Ht; reflexivity.
Qed.

Lemma safe_value_failed val e :
  py_str val = Raise e -> safe_value v val = Ok (missing v).
Proof.
  intros He. unfold safe_value.
  destruct val; try reflexivity; rewrite He; reflexivity.
Qed.

Lemma safe_value_total val : exists s, safe_value v val = Ok s.
Proof.
  destruct val as [| |s|[t|e]]; simpl; eauto.
Qed.

(** C5.  The value normaliser on a raw cell value: it always returns a
    string and never raises; None gives the missing sentinel; a value
    whose [str] raises gives the sentinel; a value whose text is empty
    after trimming, or is whitespace only, gives the sentinel; a value
    whose trimmed text is "nan" in any letter case gives the sentinel;
    every other value gives its trimmed text.  The comparison with
    "nan" is made on the trimmed text, as the emptiness test is. *)
Theorem safe_value_contract (val : value) :
  (exists s, safe_value v val = Ok s) /\
  (val = VNone -> safe_value v val = Ok (missing v)) /\
  (forall e, py_str val = Raise e -> safe_value v val = Ok (missing v)) /\
  (forall t, py_str val = Ok t -> strip t = [] ->
             safe_value v val = Ok (missing v)) /\
  (forall t, py_str val = Ok t -> forallb char_isspace t = true ->
             safe_value v val = Ok (missing v)) /\
  (forall t, py_str val = Ok t -> str_lower (strip t) = py "nan" ->
             safe_value v val = Ok (missing v)) /\
  (forall t, val <> VNone -> py_str val = Ok t ->
             strip t <> [] -> str_lower (strip t) <> py "nan" ->
             safe_value v val = Ok (strip t)).
Proof.
  assert (Hnone : safe_value v VNone = Ok (missing v)) by reflexivity.
  split; [apply safe_value_total|].
  split; [intros ->; exact Hnone|].
  split; [apply safe_value_failed|].
  split; [|split; [|split]].
  - intros t Ht He. destruct val; try exact Hnone;
      (rewrite (safe_value_text _ t) by (congruence || exact Ht));
      now rewrite He.
  - intros t Ht Hs. destruct val; try exact Hnone;
      (rewrite (safe_value_text _ t) by (congruence || exact Ht));
      now rewrite strip_spaces.
  - intros t Ht Hl. destruct val; try exact Hnone;
      (rewrite (safe_value_text _ t) by (congruence || exact Ht));
      now rewrite settle_nan.
  - intros t Hn Ht H1 H2. rewrite (safe_value_text val t Hn Ht).
    now rewrite settle_kept.
Qed.

Lemma safe_value_normal s :
  strip s = s -> s <> [] -> str_lower s <> py "nan" -> safe_value v (VStr s) = Ok s.
Proof.
  intros Hs H1 H2. rewrite (safe_value_text (VStr s) s) by (congruence || reflexivity).
  rewrite Hs. now rewrite settle_kept.
Qed.

Lemma safe_value_missing : safe_value v (VStr (missing v)) = Ok (missing v).
Proof.
  apply safe_value_normal.
  - apply strip_missing.
  - apply missing_not_empty.
  - apply missing_not_nan.
Qed.

(** C9.  The value normaliser is idempotent: whatever it returns for
    a raw value, it returns again when given that result; the missing
    sentinel and every trimmed, non-empty text that is not "nan" come
    back unchanged. *)
Theorem safe_value_idempotent (val : value) :
  (exists s, safe_value v val = Ok s /\ safe_value v (VStr s) = Ok s) /\
  safe_value v (VStr (missing v)) = Ok (missing v) /\
  (forall s, strip s = s -> s <> [] -> str_lower s <> py "nan" ->
             safe_value v (VStr s) = Ok s).
Proof.
  split; [|split; [apply safe_value_missing | apply safe_value_normal]].
  destruct val as [| |s|[t|e]].
  - exists (missing v). split; [reflexivity | apply safe_value_missing].
  - rewrite (safe_value_text VNaN (py "nan")) by (congruence || reflexivity).
    destruct (settle_cases (strip (py "nan"))) as [H | (H & H1 & H2)]; rewrite H.
    + eexists. split; [reflexivity | apply safe_value_missing].
    + eexists. split; [reflexivity|].
      apply safe_value_normal; auto using strip_idem.
  - rewrite (safe_value_text (VStr s) s) by (congruence || reflexivity).
    destruct (settle_cases (strip s)) as [H | (H & H1 & H2)]; rewrite H.
    + eexists. split; [reflexivity | apply safe_value_missing].
    + eexists. split; [reflexivity|].
      apply safe_value_normal; auto using strip_idem.
  - rewrite (safe_value_text (VObj (Ok t)) t) by (congruence || reflexivity).
    destruct (settle_cases (strip t)) as [H | (H & H1 & H2)]; rewrite H.
    + eexists. split; [reflexivity | apply safe_value_missing].
    + eexists. split; [reflexivity|].
      apply safe_value_normal; auto using strip_idem.
  - exists (missing v). split; [reflexivity | apply safe_value_missing].
Qed.

End NormaliserFacts.
Lemma safe_value_contract_witness :
  safe_value (U := ascii_only) main_py (VStr (py "  NaN ")) = Ok (py "Empty Cell") /\
  safe_value (U := ascii_only) main_py (VStr (py "  Telefon ")) = Ok (py "Telefon").
Proof.
  split.
  - destruct (safe_value_contract (U := ascii_only) main_py (VStr (py "  NaN ")))
      as (_ & _ & _ & _ & _ & Hnan & _).
    apply (Hnan (py "  NaN ")); reflexivity.
  - destruct (safe_value_contract (U := ascii_only) main_py (VStr (py "  Telefon ")))
      as (_ & _ & _ & _ & _ & _ & Hkept).
    apply (Hkept (py "  Telefon "));
      [discriminate | reflexivity | vm_compute; discriminate | vm_compute; discriminate].
Defined.

Lemma safe_value_idempotent_witness :
  safe_value (U := ascii_only) aktuell_py (VStr (py "Telefon")) = Ok (py "Telefon").
Proof.
  destruct (safe_value_idempotent (U := ascii_only) aktuell_py VNaN) as (_ & _ & Hkept).
  apply (Hkept (py "Telefon"));
    [reflexivity | discriminate | vm_compute; discriminate].
Defined.

(* ================================================================== *)
(** * Prompt builder: the facts sentences                              *)
(* ================================================================== *)

(** C4.  The two facts sentences: each is made of one labelled clause
    per field, in the order manufacturer, material, dimensions, year,
    without the fields that equal the missing sentinel, the clauses
    joined with "; ".  With manufacturer "Acme", dimensions "10x20cm"
    and the other two missing, the sentences are
    "Hersteller: Acme; Maße: 10x20cm" and
    "Manufacturer: Acme; Dimensions: 10x20cm"; with all four missing,
    both are empty.  This holds for both scripts. *)
Theorem build_list_sentences_facts (v : script) :
  (forall manufacturer material dimensions year,
     build_list_sentences v manufacturer material dimensions year =
     (facts_sentence v (german_fields manufacturer material dimensions year),
      facts_sentence v (english_fields manufacturer material dimensions year))) /\
  build_list_sentences v (py "Acme") (missing v) (py "10x20cm") (missing v) =
    (py "Hersteller: Acme; Maße: 10x20cm", py "Manufacturer: Acme; Dimensions: 10x20cm") /\
  build_list_sentences v (missing v) (missing v) (missing v) (missing v) = ([], []).
Proof.
  split; [|split].
  - intros m a d y.
    unfold build_list_sentences, facts_sentence, german_fields, english_fields,
      append_clause.
    simpl filter.
    destruct (negb (str_eqb m (missing v))), (negb (str_eqb a (missing v))),
      (negb (str_eqb d (missing v))), (negb (str_eqb y (missing v))); reflexivity.
  - destruct v; vm_compute; reflexivity.
  - destruct v; vm_compute; reflexivity.
Qed.

(* ================================================================== *)
(** * Order of strings and sorting                                     *)
(* ================================================================== *)

Lemma str_leb_refl a : str_leb a a = true.
Proof.
  induction a as [|x a IH]; simpl.
  - reflexivity.
  - rewrite N.ltb_irrefl, N.eqb_refl. exact IH.
Qed.

Lemma str_leb_total a : forall b, str_leb a b = false -> str_leb b a = true.
Proof.
  induction a as [|x a IH]; intros [|y b]; simpl; try discriminate; try reflexivity.
  destruct (N.ltb_spec x y); [discriminate|].
  destruct (N.eqb_spec x y) as [->|Hne].
  - rewrite N.ltb_irrefl, N.eqb_refl. apply IH.
  - intros _. destruct (N.ltb_spec y x); [reflexivity | lia].
Qed.

Lemma str_leb_trans a : forall b c,
  str_leb a b = true -> str_leb b c = true -> str_leb a c = true.
Proof.
  induction a as [|x a IH]; intros [|y b] [|z c]; simpl; try discriminate; try reflexivity.
  destruct (N.ltb_spec x y), (N.ltb_spec y z), (N.ltb_spec x z);
    try reflexivity; try lia;
    destruct (N.eqb_spec x y), (N.eqb_spec y z), (N.eqb_spec x z);
    try discriminate; try lia; try reflexivity.
  apply IH.
Qed.

Lemma str_leb_antisym a : forall b,
  str_leb a b = true -> str_leb b a = true -> a = b.
Proof.
  induction a as [|x a IH]; intros [|y b]; simpl; try discriminate; try reflexivity.
  destruct (N.ltb_spec x y) as [Hxy|Hxy].
  - destruct (N.ltb_spec y x); [lia|].
    destruct (N.eqb_spec y x); [lia | discriminate].
  - destruct (N.eqb_spec x y) as [->|Hne]; [|discriminate].
    rewrite N.ltb_irrefl, N.eqb_refl. intros H1 H2. f_equal. now apply IH.
Qed.

Lemma insert_sorted_perm x l : Permutation (x :: l) (insert_sorted x l).
Proof.
  induction l as [|y r IH]; simpl.
  - reflexivity.
  - destruct (str_leb x y).
    + reflexivity.
    + rewrite perm_swap. now apply perm_skip.
Qed.

Lemma sorted_perm l : Permutation l (sorted l).
Proof.
  induction l as [|x r IH]; simpl.
  - reflexivity.
  - rewrite <- insert_sorted_perm. now apply perm_skip.
Qed.

Lemma insert_sorted_ordered x l :
  StronglySorted str_le l -> StronglySorted str_le (insert_sorted x l).
Proof.
  induction 1 as [|y r Hr IH Hy]; simpl.
  - repeat constructor.
  - destruct (str_leb x y) eqn:E.
    + constructor; [now constructor|].
      constructor; [exact E|].
      eapply Forall_impl; [|exact Hy]. intros z Hz.
      unfold str_le in *. eapply str_leb_trans; eauto.
    + constructor; [exact IH|].
      eapply Permutation_Forall; [apply insert_sorted_perm|].
      constructor; [|exact Hy]. now apply str_leb_total.
Qed.

Lemma sorted_ordered l : StronglySorted str_le (sorted l).
Proof.
  induction l as [|x r IH]; simpl.
  - constructor.
  - now apply insert_sorted_ordered.
Qed.

Lemma firstn_incl {A} n : forall (l : list A) x, In x (firstn n l) -> In x l.
Proof.
  induction n as [|n IH]; intros [|a l] x; simpl; try tauto.
  intros [->|H]; [now left | right; now apply IH].
Qed.

Lemma firstn_ordered n : forall l,
  StronglySorted str_le l -> StronglySorted str_le (firstn n l).
Proof.
  induction n as [|n IH]; intros l H; simpl.
  - constructor.
  - destruct H as [|y r Hr Hy]; constructor.
    + now apply IH.
    + rewrite Forall_forall in *. intros z Hz. apply Hy.
      eapply firstn_incl; eauto.
Qed.

(** Two ordered lists with the same elements are the same list. *)
Lemma ordered_unique l : forall l',
  StronglySorted str_le l -> StronglySorted str_le l' -> Permutation l l' -> l = l'.
Proof.
  induction l as [|x r IH]; intros l' Hl Hl' Hp.
  - apply Permutation_nil in Hp. now subst.
  - destruct l' as [|y r'].
    + symmetry in Hp. now apply Permutation_nil in Hp.
    + inversion Hl as [|? ? Hr Hx]; subst. inversion Hl' as [|? ? Hr' Hy]; subst.
      assert (x = y).
      { assert (In x (y :: r')) as [->|Hin]
          by (eapply Permutation_in; [exact Hp | now left]); [reflexivity|].
        assert (In y (x :: r)) as [->|Hin']
          by (eapply Permutation_in; [symmetry; exact Hp | now left]); [reflexivity|].
        rewrite Forall_forall in Hx, Hy.
        apply str_leb_antisym; [now apply Hx | now apply Hy]. }
      subst y. f_equal. apply IH; auto.
      now apply Permutation_cons_inv in Hp.
Qed.

Lemma sorted_unique l l' :
  Permutation l l' -> StronglySorted str_le l' -> sorted l = l'.
Proof.
  intros Hp Hl'. apply ordered_unique.
  - apply sorted_ordered.
  - exact Hl'.
  - rewrite <- Hp. symmetry. apply sorted_perm.
Qed.

Lemma filter_perm {A} (f : A -> bool) l l' :
  Permutation l l' -> Permutation (filter f l) (filter f l').
Proof.
  induction 1; simpl.
  - reflexivity.
  - destruct (f x); [now apply perm_skip | assumption].
  - destruct (f x), (f y); try reflexivity. apply perm_swap.
  - etransitivity; eauto.
Qed.

Lemma slice_to_firstn {A} (l : list A) (j : Z) :
  (0 <= j)%Z -> slice_to l j = firstn (Z.to_nat j) l.
Proof.
  intros H. unfold slice_to, slice_index.
  destruct (Z.ltb_spec j 0); [lia|].
  destruct (Nat.le_ge_cases (Z.to_nat j) (length l)) as [Hle|Hge].
  - now rewrite Nat.min_l.
  - rewrite Nat.min_r by exact Hge.
    now rewrite !firstn_all2 by lia.
Qed.

(* ================================================================== *)
(** * Paths                                                            *)
(* ================================================================== *)

Lemma upto_last_slash_none f : ~ In slash f -> upto_last_slash f = [].
Proof.
  induction f as [|c f IH]; simpl; intros H.
  - reflexivity.
  - rewrite IH by tauto.
    destruct (N.eqb_spec c slash) as [->|]; [|reflexivity]. tauto.
Qed.

Lemma upto_last_slash_app a f :
  ~ In slash f -> upto_last_slash (a ++ slash :: f) = a ++ [slash].
Proof.
  intros H. induction a as [|c a IH]; simpl.
  - now rewrite (upto_last_slash_none f H).
  - rewrite IH. destruct a; reflexivity.
Qed.

Lemma rstrip_char_slash a d :
  d <> slash -> rstrip_char slash ((a ++ [d]) ++ [slash]) = a ++ [d].
Proof.
  intros H. unfold rstrip_char. rewrite !rev_app_distr. simpl.
  destruct (N.eqb_spec d slash); [contradiction|].
  simpl. now rewrite rev_involutive.
Qed.

Lemma not_only_slashes a d :
  d <> slash -> forallb (fun c => (c =? slash)%N) ((a ++ [d]) ++ [slash]) = false.
Proof.
  intros H. rewrite !forallb_app. simpl.
  destruct (N.eqb_spec d slash); [contradiction|].
  now rewrite andb_false_r.
Qed.

(** The parent of a name joined to a folder is the folder. *)
Lemma dirname_join a d f :
  d <> slash -> ~ In slash f ->
  os_path_dirname (os_path_join (a ++ [d]) f) = a ++ [d].
Proof.
  intros Hd Hf. unfold os_path_join.
  assert (Hs : startswith f [slash] = false).
  { destruct f as [|c f]; [reflexivity|]. simpl.
    destruct (N.eqb_spec c slash) as [->|]; [|reflexivity].
    exfalso. apply Hf. now left. }
  rewrite Hs.
  assert (He : endswith (a ++ [d]) [slash] = false).
  { unfold endswith. rewrite rev_app_distr. simpl.
    destruct (N.eqb_spec d slash); [contradiction | reflexivity]. }
  rewrite He. destruct (a ++ [d]) eqn:E; [now destruct a|]. rewrite <- E.
  unfold os_path_dirname. simpl app.
  rewrite (upto_last_slash_app (a ++ [d]) f Hf).
  rewrite (not_only_slashes a d Hd). now apply rstrip_char_slash.
Qed.

Lemma join_ends base y d :
  d <> slash -> (forall c, In c y -> c <> slash) ->
  exists a, os_path_join base (y ++ [d]) = a ++ [d].
Proof.
  intros Hd Hy. unfold os_path_join.
  assert (Hs : startswith (y ++ [d]) [slash] = false).
  { destruct y as [|c y]; simpl.
    - destruct (N.eqb_spec d slash); [contradiction | reflexivity].
    - destruct (N.eqb_spec c slash) as [->|]; [|reflexivity].
      exfalso. apply (Hy slash); [now left | reflexivity]. }
  rewrite Hs.
  destruct (match base with [] => true | _ :: _ => endswith base [slash] end).
  - exists (base ++ y). now rewrite app_assoc.
  - exists (base ++ [slash] ++ y). now rewrite <- !app_assoc.
Qed.

(* ================================================================== *)
(** * Image locator                                                    *)
(* ================================================================== *)

Lemma find_agree {A} (f g : A -> bool) l :
  Forall (fun x => f x = g x) l -> find f l = find g l.
Proof.
  induction 1 as [|x l Hx Hl IH]; simpl.
  - reflexivity.
  - rewrite Hx. now rewrite IH.
Qed.

Lemma find_none_iff {A} (f : A -> bool) l :
  (forall x, In x l -> f x = false) -> find f l = None.
Proof.
  induction l as [|x l IH]; simpl; intros H.
  - reflexivity.
  - rewrite (H x) by now left. apply IH. intros y Hy. apply H. now right.
Qed.

Lemma filter_agree {A} (f g : A -> bool) l :
  Forall (fun x => f x = g x) l -> filter f l = filter g l.
Proof.
  induction 1 as [|x l Hx Hl IH]; simpl.
  - reflexivity.
  - rewrite Hx. now rewrite IH.
Qed.

(** The characters of the parts of a split are characters of the string. *)
Lemma split_char_chars sep s : forall p c,
  In p (split_char sep s) -> In c p -> In c s.
Proof.
  induction s as [|a s IH]; simpl; intros p c Hp Hc.
  - destruct Hp as [<-|[]]. destruct Hc.
  - destruct (a =? sep)%N.
    + destruct Hp as [<-|Hp]; [destruct Hc|]. right. eapply IH; eauto.
    + destruct (split_char sep s) as [|w ws] eqn:E.
      * destruct Hp as [<-|[]]. destruct Hc as [->|[]]. now left.
      * destruct Hp as [<-|Hp].
        -- destruct Hc as [->|Hc]; [now left|]. right. apply (IH w c); [now left | exact Hc].
        -- right. apply (IH p c); [now right | exact Hc].
Qed.

Lemma split_char_ascii sep s :
  forallb is_ascii s = true ->
  Forall (fun p => forallb is_ascii p = true) (split_char sep s).
Proof.
  intros H. apply Forall_forall. intros p Hp.
  apply forallb_forall. intros c Hc.
  rewrite forallb_forall in H. apply H. eapply split_char_chars; eauto.
Qed.

Section LocatorFacts.
Context {U : Unicode}.

Lemma split_words_pending r : forall word,
  word <> [] -> split_words word r <> [].
Proof.
  induction r as [|a r IH]; intros word Hw; simpl.
  - destruct word; [congruence | discriminate].
  - destruct (char_isspace a).
    + destruct word; [congruence | discriminate].
    + apply IH. discriminate.
Qed.

Lemma split_words_nonempty s c : forall word,
  In c s -> char_isspace c = false -> split_words word s <> [].
Proof.
  induction s as [|a r IH]; intros word Hin Hc; simpl.
  - destruct Hin.
  - destruct Hin as [->|Hin].
    + rewrite Hc. apply split_words_pending. discriminate.
    + destruct (char_isspace a).
      * destruct word; [now apply IH | discriminate].
      * apply split_words_pending. discriminate.
Qed.

Lemma year_of_some id year :
  year_of id = Some year ->
  In year (split_char slash id) /\ isdigit year = true /\ length year = 4.
Proof.
  unfold year_of. intros H. apply find_some in H. destruct H as [Hin H].
  apply andb_true_iff in H. destruct H as [Hd Hl].
  apply Nat.eqb_eq in Hl. auto.
Qed.

(** An identifier with a year has a first word: the subscript [0] finds it. *)
Lemma prefix_of_total id year :
  year_of id = Some year -> exists prefix, prefix_of id = Ok prefix.
Proof.
  intros H. apply year_of_some in H. destruct H as (Hin & Hd & Hl).
  destruct year as [|c y]; [discriminate|].
  simpl in Hd. apply andb_true_iff in Hd. destruct Hd as [Hc _].
  assert (Hs : char_isspace c = false) by now apply digit_not_space.
  assert (Hne : (c =? slash)%N = false).
  { destruct (N.eqb_spec c slash) as [->|]; [|reflexivity].
    rewrite isdigit_ascii in Hc by reflexivity. discriminate. }
  assert (Hid : In c (replace_char slash hyphen id)).
  { unfold replace_char. apply in_map_iff. exists c. rewrite Hne.
    split; [reflexivity|]. eapply split_char_chars; [exact Hin | now left]. }
  unfold prefix_of, split_whitespace.
  pose proof (split_words_nonempty _ c [] Hid Hs) as Hw.
  destruct (split_words [] (replace_char slash hyphen id)); [congruence|eauto].
Qed.

Lemma digit_not_slash c : char_isdigit c = true -> c <> slash.
Proof.
  intros H ->. rewrite isdigit_ascii in H by reflexivity. discriminate.
Qed.

(** The folder of a year ends in a digit. *)
Lemma year_folder_ends base_folder object_id year :
  year_of object_id = Some year ->
  exists a d, d <> slash /\ os_path_join base_folder year = a ++ [d].
Proof.
  intros H. apply year_of_some in H. destruct H as (_ & Hd & Hl).
  destruct (exists_last (l := year)) as (y & d & ->);
    [destruct year; discriminate|].
  unfold isdigit in Hd.
  assert (Hall : forallb char_isdigit (y ++ [d]) = true)
    by (destruct (y ++ [d]); [discriminate | exact Hd]).
  rewrite forallb_app in Hall. apply andb_true_iff in Hall.
  destruct Hall as [Hy Hd']. simpl in Hd'. rewrite andb_true_r in Hd'.
  destruct (join_ends base_folder y d) as [a Ha].
  - now apply digit_not_slash.
  - intros c Hc. apply digit_not_slash.
    rewrite forallb_forall in Hy. now apply Hy.
  - exists a, d. split; [now apply digit_not_slash | exact Ha].
Qed.

Lemma year_of_agree id :
  forallb is_ascii id = true -> year_of id = year_of (U := ascii_only) id.
Proof.
  intros H. unfold year_of. apply find_agree.
  eapply Forall_impl; [|apply split_char_ascii; exact H].
  intros p Hp. simpl. now rewrite (isdigit_str_agree p Hp).
Qed.

Lemma prefix_of_agree id :
  forallb is_ascii id = true -> prefix_of id = prefix_of (U := ascii_only) id.
Proof.
  intros H. unfold prefix_of, split_whitespace.
  rewrite split_words_agree; [reflexivity|].
  unfold replace_char. rewrite forallb_forall in *.
  intros c Hc. apply in_map_iff in Hc. destruct Hc as (a & <- & Ha).
  destruct (a =? slash)%N; [reflexivity | now apply H].
Qed.

Lemma is_image_name_agree f :
  forallb is_ascii f = true -> is_image_name f = is_image_name (U := ascii_only) f.
Proof. intros H. unfold is_image_name. now rewrite (lower_agree f H). Qed.

Variable o : OS.

(** C7.  The image locator returns the empty sequence, and does not
    raise, when no slash-separated part of the identifier consists of
    exactly four digits, and when the folder of the year found does
    not exist. *)
Theorem find_images_empty_cases (base_folder object_id : str) (max_images : Z) :
  (forall p, In p (split_char slash object_id) -> isdigit p = true -> length p <> 4)
  \/ (exists year, year_of object_id = Some year
                   /\ path_exists o (os_path_join base_folder year) = false) ->
  find_images_for_object o base_folder object_id max_images = Ok [].
Proof.
  intros [Hno | (year & Hy & Hex)]; unfold find_images_for_object.
  - unfold year_of. rewrite find_none_iff; [reflexivity|].
    intros p Hp. destruct (isdigit p) eqn:Hd; [|reflexivity].
    simpl. apply Nat.eqb_neq. now apply Hno.
  - rewrite Hy. destruct year; [reflexivity|]. now rewrite Hex.
Qed.

(** C8.  What the image locator returns, for a cap that is not
    negative.  It returns at most as many paths as the cap; none when
    the identifier has no year, and none when the folder of the year
    does not exist.  When the folder exists and is listed, the names
    taken are those entries of the listing that end in .jpg, .jpeg or
    .png in any letter case and start with the prefix of the
    identifier; all of them are sorted, the sorted list is cut to the
    cap, and each name left is joined to the folder of the year, so
    that the paths are min(cap, number of matching entries) many, in
    the order of their names, and have the folder as their parent
    directory when the listing holds plain file names.  The locator
    raises only what the listing of that folder raises. *)
Theorem image_set_invariant (base_folder object_id : str) (max_images : Z) :
  (0 <= max_images)%Z ->
  match find_images_for_object o base_folder object_id max_images with
  | Ok paths =>
      length paths <= Z.to_nat max_images /\
      (year_of object_id = None -> paths = []) /\
      (forall year,
         year_of object_id = Some year ->
         path_exists o (os_path_join base_folder year) = false ->
         paths = []) /\
      (forall year entries,
         year_of object_id = Some year ->
         path_exists o (os_path_join base_folder year) = true ->
         listdir o (os_path_join base_folder year) = Ok entries ->
         exists prefix matches,
           prefix_of object_id = Ok prefix /\
           Permutation matches
             (filter (fun f => startswith f prefix)
                     (filter is_image_name entries)) /\
           StronglySorted str_le matches /\
           paths = map (os_path_join (os_path_join base_folder year))
                       (firstn (Z.to_nat max_images) matches) /\
           length paths = Nat.min (Z.to_nat max_images) (length matches) /\
           StronglySorted str_le (firstn (Z.to_nat max_images) matches) /\
           (Forall file_name entries ->
            Forall (fun p => os_path_dirname p = os_path_join base_folder year)
                   paths))
  | Raise e =>
      exists year, year_of object_id = Some year
                   /\ path_exists o (os_path_join base_folder year) = true
                   /\ listdir o (os_path_join base_folder year) = Raise e
  end.
Proof.
  intros Hmax. unfold find_images_for_object.
  destruct (year_of object_id) as [year|] eqn:Hy.
  2:{ split; [simpl; lia|]. split; [reflexivity|].
      split; [discriminate|]. intros; discriminate. }
  assert (Hlen4 : length year = 4) by (now apply year_of_some in Hy).
  destruct year as [|c y]; [discriminate|].
  destruct (path_exists o (os_path_join base_folder (c :: y))) eqn:Hex; simpl.
  2:{ split; [lia|]. split; [discriminate|]. split; [reflexivity|].
      intros y' entries Hy'. injection Hy' as <-. congruence. }
  destruct (prefix_of_total _ _ Hy) as [prefix Hprefix]. rewrite Hprefix. simpl.
  destruct (listdir o (os_path_join base_folder (c :: y))) as [entries|e] eqn:Hl;
    simpl.
  - rewrite slice_to_firstn by exact Hmax.
    split; [rewrite length_map; apply firstn_le_length|].
    split; [discriminate|].
    split; [intros y' Hy'; injection Hy' as <-; congruence|].
    intros y' entries' Hy' _ Hl'. injection Hy' as <-.
    rewrite Hl in Hl'. injection Hl' as <-.
    exists prefix, (sorted (filter (fun f => startswith f prefix)
                                   (filter is_image_name entries))).
    split; [reflexivity|].
    split; [symmetry; apply sorted_perm|].
    split; [apply sorted_ordered|].
    split; [reflexivity|].
    split; [now rewrite length_map, length_firstn|].
    split; [apply firstn_ordered, sorted_ordered|].
    intros Hnames.
    destruct (year_folder_ends base_folder object_id (c :: y) Hy)
      as (a & d & Hd & Hfolder).
    rewrite Hfolder. apply Forall_forall. intros p Hp.
    apply in_map_iff in Hp. destruct Hp as (f & <- & Hf).
    apply dirname_join; [exact Hd|].
    apply firstn_incl in Hf.
    apply (Permutation_in f (Permutation_sym (sorted_perm _))) in Hf.
    apply filter_In in Hf. destruct Hf as [Hf _].
    apply filter_In in Hf. destruct Hf as [Hf _].
    rewrite Forall_forall in Hnames. now apply Hnames.
  - exists (c :: y). auto.
Qed.

(** C1, amended.  With the identifier "AK/2019/001", whose year is a
    part of its own, an existing folder of the year 2019 and a
    listing of that folder that holds AK-2019-001_a.jpg, _b, _c and
    _d in any order, the locator with cap 3 returns the paths of _a,
    _b and _c in that order. *)
Theorem find_images_example (base_folder : str) (entries : list str) :
  path_exists o (os_path_join base_folder (py "2019")) = true ->
  listdir o (os_path_join base_folder (py "2019")) = Ok entries ->
  Permutation entries pictures_2019 ->
  find_images_for_object o base_folder (py "AK/2019/001") 3 =
  Ok (map (os_path_join (os_path_join base_folder (py "2019")))
          [py "AK-2019-001_a.jpg"; py "AK-2019-001_b.jpg"; py "AK-2019-001_c.jpg"]).
Proof.
  intros Hex Hl Hp. unfold find_images_for_object.
  rewrite year_of_agree by reflexivity.
  change (year_of (U := ascii_only) (py "AK/2019/001")) with (Some (py "2019")).
  change (py "2019") with ([50; 48; 49; 57]%N) in *.
  cbv iota beta. rewrite Hex. simpl negb. cbv iota.
  rewrite prefix_of_agree by reflexivity.
  change (prefix_of (U := ascii_only) (py "AK/2019/001")) with (Ok (py "AK-2019-001")).
  unfold rbind at 1. rewrite Hl. unfold rbind.
  f_equal. f_equal.
  assert (Hs : sorted (filter (fun f => startswith f (py "AK-2019-001"))
                              (filter is_image_name entries)) = pictures_2019).
  { apply sorted_unique.
    - etransitivity; [apply filter_perm, filter_perm, Hp|].
      rewrite (filter_agree is_image_name (is_image_name (U := ascii_only)))
        by (unfold pictures_2019;
            repeat (constructor; [now apply is_image_name_agree|]); constructor).
      reflexivity.
    - unfold str_le. repeat constructor. }
  rewrite Hs. reflexivity.
Qed.

End LocatorFacts.
Lemma find_images_empty_cases_witness :
  (forall p, In p (split_char slash (py "AK/2019-001")) ->
             isdigit (U := ascii_only) p = true -> length p <> 4) /\
  find_images_for_object (U := ascii_only) os_2019
    (py "Objektbilder") (py "AK/2019-001") MAX_IMAGES = Ok [] /\
  year_of (U := ascii_only) (py "AK/1987/5") = Some (py "1987") /\
  path_exists os_2019 (os_path_join (py "Objektbilder") (py "1987")) = false /\
  find_images_for_object (U := ascii_only) os_2019
    (py "Objektbilder") (py "AK/1987/5") MAX_IMAGES = Ok [].
Proof.
  assert (H : forall p, In p (split_char slash (py "AK/2019-001")) ->
                        isdigit (U := ascii_only) p = true -> length p <> 4).
  { intros p Hp. simpl in Hp. destruct Hp as [<-|[<-|[]]]; vm_compute; discriminate. }
  split; [exact H|].
  split; [apply (find_images_empty_cases (U := ascii_only)); left; exact H|].
  split; [reflexivity|]. split; [reflexivity|].
  apply (find_images_empty_cases (U := ascii_only)). right.
  exists (py "1987"). split; reflexivity.
Defined.

Lemma image_set_invariant_witness :
  (0 <= MAX_IMAGES)%Z /\
  listdir os_2019_reversed (py "Objektbilder/2019") =
    Ok [py "AK-2019-001_d.jpg"; py "AK-2019-001_c.jpg"; py "notes.txt";
        py "AK-2019-001_b.jpg"; py "AK-2019-002_a.jpg"; py "AK-2019-001_a.jpg"] /\
  find_images_for_object (U := ascii_only) os_2019_reversed
    (py "Objektbilder") (py "AK/2019/001") MAX_IMAGES =
  Ok [py "Objektbilder/2019/AK-2019-001_a.jpg";
      py "Objektbilder/2019/AK-2019-001_b.jpg";
      py "Objektbilder/2019/AK-2019-001_c.jpg"].
Proof.
  assert (H : (0 <= MAX_IMAGES)%Z) by (vm_compute; discriminate).
  split; [exact H|]. split; [reflexivity|].
  generalize (image_set_invariant (U := ascii_only) os_2019_reversed
                (py "Objektbilder") (py "AK/2019/001") MAX_IMAGES H).
  destruct (find_images_for_object (U := ascii_only) os_2019_reversed
              (py "Objektbilder") (py "AK/2019/001") MAX_IMAGES) as [paths|e] eqn:E.
  - intros (_ & _ & _ & Hlisted).
    destruct (Hlisted (py "2019") _ eq_refl eq_refl eq_refl)
      as (prefix & matches & Hprefix & Hperm & Hsorted & Hpaths & _).
    vm_compute in Hprefix. injection Hprefix as <-.
    assert (Hm : matches = pictures_2019).
    { apply ordered_unique.
      - exact Hsorted.
      - unfold str_le. repeat constructor.
      - etransitivity; [exact Hperm|].
        exact (Permutation_sym (Permutation_rev pictures_2019)). }
    rewrite Hpaths, Hm. reflexivity.
  - vm_compute in E. discriminate.
Defined.

Lemma find_images_example_witness :
  path_exists os_2019 (os_path_join (py "Objektbilder") (py "2019")) = true /\
  listdir os_2019 (os_path_join (py "Objektbilder") (py "2019")) = Ok pictures_2019 /\
  Permutation pictures_2019 pictures_2019 /\
  find_images_for_object (U := ascii_only) os_2019
    (py "Objektbilder") (py "AK/2019/001") 3 =
  Ok [py "Objektbilder/2019/AK-2019-001_a.jpg";
      py "Objektbilder/2019/AK-2019-001_b.jpg";
      py "Objektbilder/2019/AK-2019-001_c.jpg"].
Proof.
  split; [reflexivity|]. split; [reflexivity|]. split; [reflexivity|].
  apply (find_images_example (U := ascii_only) os_2019 (py "Objektbilder") pictures_2019);
    reflexivity.
Defined.

(** C1, as stated, fails: the identifier "AK/2019-001" splits into "AK"
    and "2019-001", no part of it consists of four digits, and the
    locator returns the empty sequence although the folder of 2019
    holds the four pictures. *)
Lemma find_images_no_year_part :
  split_char slash (py "AK/2019-001") = [py "AK"; py "2019-001"] /\
  path_exists os_2019 (py "Objektbilder/2019") = true /\
  listdir os_2019 (py "Objektbilder/2019") = Ok pictures_2019 /\
  find_images_for_object (U := ascii_only) os_2019
    (py "Objektbilder") (py "AK/2019-001") 3 = Ok [] /\
  find_images_for_object (U := ascii_only) os_2019
    (py "Objektbilder") (py "AK/2019-001") 3 <>
  Ok [py "Objektbilder/2019/AK-2019-001_a.jpg";
      py "Objektbilder/2019/AK-2019-001_b.jpg";
      py "Objektbilder/2019/AK-2019-001_c.jpg"].
Proof.
  repeat split; try reflexivity. vm_compute. discriminate.
Qed.

(* ================================================================== *)
(** * Generation client: the retry loop                                *)
(* ================================================================== *)

Lemma posts_app t t' : posts (t ++ t') = posts t + posts t'.
Proof. unfold posts. now rewrite filter_app, length_app. Qed.

Lemma sleeps_app t t' : sleeps (t ++ t') = sleeps t ++ sleeps t'.
Proof.
  induction t as [|[p i m|n] t IH]; simpl.
  - reflexivity.
  - exact IH.
  - now rewrite IH.
Qed.

Lemma is_rate_limit_inv r :
  is_rate_limit r = true -> exists text, r = HTTPError 429 text.
Proof.
  destruct r as [c|s text|text|e]; simpl; try discriminate.
  intros H. apply Z.eqb_eq in H. subst. eauto.
Qed.

Lemma aborted_text_distinct v text :
  aborted_text v <> api_error_text v ++ text /\
  aborted_text v <> connection_error_text v ++ text.
Proof. destruct v; split; discriminate. Qed.

Lemma error_texts_tagged v text :
  error_tagged v (api_error_text v ++ text) = true /\
  error_tagged v (connection_error_text v ++ text) = true /\
  error_tagged v (aborted_text v) = true.
Proof. destruct v; repeat split; reflexivity. Qed.

Section ClientFacts.
Variable v : script.
Variable env : Env.
Variables (prompt_text : str) (images : list str) (max_tokens : Z).

Let P := Post prompt_text images max_tokens.
Let loop := attempts v env prompt_text images max_tokens.

(** One turn of the loop, by the answer to its request. *)
Lemma attempts_step attempt rest t :
  loop (attempt :: rest) t =
  match service env (posts t) with
  | Completion content => (Ok content, t ++ [P])
  | HTTPError status text =>
      if (status =? 429)%Z
      then loop rest (t ++ [P; Sleep (5 * (attempt + 1))])
      else (Ok (api_error_text v ++ text), t ++ [P])
  | RequestException text => (Ok (connection_error_text v ++ text), t ++ [P])
  | Malformed e => (Raise e, t ++ [P])
  end.
Proof.
  unfold loop. simpl. unfold bind at 1. unfold requests_post. fold P.
  destruct (service env (posts t)) as [c|s text|text|e]; try reflexivity.
  destruct (s =? 429)%Z; [|reflexivity].
  unfold bind, time_sleep. now rewrite <- app_assoc.
Qed.

Lemma attempts_done t : loop [] t = (Ok (aborted_text v), t).
Proof. reflexivity. Qed.

Lemma attempts_retry attempt rest t :
  is_rate_limit (service env (posts t)) = true ->
  loop (attempt :: rest) t = loop rest (t ++ [P; Sleep (5 * (attempt + 1))]).
Proof.
  intros H. rewrite attempts_step.
  destruct (is_rate_limit_inv _ H) as [text ->]. reflexivity.
Qed.

Lemma posts_retry t (n : Z) : posts (t ++ [P; Sleep n]) = S (posts t).
Proof. rewrite posts_app. unfold P. simpl. unfold posts. simpl. lia. Qed.

Lemma posts_request t : posts (t ++ [P]) = S (posts t).
Proof. rewrite posts_app. unfold P, posts. simpl. lia. Qed.

(** The loop sends at most one request per attempt. *)
Lemma attempts_bound todo : forall t,
  posts (snd (loop todo t)) <= posts t + length todo.
Proof.
  induction todo as [|a rest IH]; intros t.
  - rewrite attempts_done. simpl. lia.
  - rewrite attempts_step.
    destruct (service env (posts t)) as [c|s text|text|e];
      [| destruct (s =? 429)%Z | |]; cbn [snd length];
      rewrite ?posts_request; try lia.
    specialize (IH (t ++ [P; Sleep (5 * (a + 1))])).
    rewrite posts_retry in IH. lia.
Qed.

(** After [k] rate-limit answers the loop stands at attempt [k]. *)
Lemma attempts_rate_limited k : forall a n t,
  (forall j, j < k -> is_rate_limit (service env (posts t + j)) = true) ->
  loop (map Z.of_nat (seq a (k + n))) t =
  loop (map Z.of_nat (seq (a + k) n))
       (t ++ flat_map (fun i => [P; Sleep (5 * Z.of_nat (S i))]) (seq a k)).
Proof.
  induction k as [|k IH]; intros a n t H.
  - simpl. now rewrite Nat.add_0_r, app_nil_r.
  - simpl seq. simpl map. rewrite attempts_retry
      by (specialize (H 0 (Nat.lt_0_succ k)); now rewrite Nat.add_0_r in H).
    rewrite IH.
    + simpl flat_map. rewrite <- app_assoc.
      replace (Z.of_nat a + 1)%Z with (Z.of_nat (S a)) by lia.
      now replace (S a + k) with (a + S k) by lia.
    + intros j Hj. rewrite posts_retry.
      replace (S (posts t) + j) with (posts t + S j) by lia.
      apply H. lia.
Qed.

End ClientFacts.

Section RetryPolicy.
Variable v : script.
Variable env : Env.
Variables (image_paths : list str) (prompt_text : str) (max_tokens : Z).
Variable images : list str.
Variable t : trace.

Let P := Post prompt_text images max_tokens.
Let answer (j : nat) := service env (posts t + j).
Let run := generate_catalog_text v env image_paths prompt_text max_tokens t.

Lemma posts_retries k : posts (t ++ retries P k) = posts t + k.
Proof.
  rewrite posts_app. f_equal. unfold retries.
  generalize 0. induction k as [|k IH]; intros a; simpl.
  - reflexivity.
  - unfold posts in *. simpl. now rewrite IH.
Qed.

Hypothesis Himages : image_contents (os env) image_paths = Ok images.

Lemma run_attempts :
  run = attempts v env prompt_text images max_tokens (range 3) t.
Proof.
  unfold run, generate_catalog_text, bind, lift. now rewrite Himages.
Qed.

(** The run, once [k] rate-limit answers are behind it. *)
Lemma run_after k :
  k <= 3 ->
  (forall j, j < k -> is_rate_limit (answer j) = true) ->
  run = attempts v env prompt_text images max_tokens
          (map Z.of_nat (seq k (3 - k))) (t ++ retries P k).
Proof.
  intros Hk H. rewrite run_attempts. unfold range.
  replace 3 with (k + (3 - k)) at 1 by lia.
  now rewrite (attempts_rate_limited v env prompt_text images max_tokens k 0 (3 - k) t H).
Qed.

Lemma run_aborted :
  (forall j, j < 3 -> is_rate_limit (answer j) = true) ->
  run = (Ok (aborted_text v), t ++ [P; Sleep 5; P; Sleep 10; P; Sleep 15]).
Proof. intros H. now rewrite (run_after 3 (le_n 3) H). Qed.

(** C3.  The retry policy of the generation client, the pictures being
    readable.  Let the first [k] answers (k < 3) be rate-limit
    answers.  If answer k is a completion, the client returns its
    text; if it is another HTTP error or a failure of the request, the
    client returns an error-tagged text at once, without a further
    request and without raising; if it is a rate-limit answer, the
    client waits 5 * (k + 1) and goes on with the attempts that are
    left.  Two rate-limit answers and then a completion give the text
    after waits of 5 and 10.  Three rate-limit answers give the
    abort text, which is none of the other error texts, after three
    requests.  No run sends more than three requests. *)
Theorem retry_policy :
  (forall k, k < 3 ->
     (forall j, j < k -> is_rate_limit (answer j) = true) ->
     match answer k with
     | Completion content => run = (Ok content, t ++ retries P k ++ [P])
     | HTTPError status text =>
         if (status =? 429)%Z
         then run = attempts v env prompt_text images max_tokens
                      (map Z.of_nat (seq (S k) (2 - k)))
                      (t ++ retries P k ++ [P; Sleep (5 * Z.of_nat (S k))])
         else run = (Ok (api_error_text v ++ text), t ++ retries P k ++ [P])
              /\ error_tagged v (api_error_text v ++ text) = true
     | RequestException text =>
         run = (Ok (connection_error_text v ++ text), t ++ retries P k ++ [P])
         /\ error_tagged v (connection_error_text v ++ text) = true
     | Malformed e => run = (Raise e, t ++ retries P k ++ [P])
     end) /\
  (forall content,
     is_rate_limit (answer 0) = true -> is_rate_limit (answer 1) = true ->
     answer 2 = Completion content ->
     run = (Ok content, t ++ [P; Sleep 5; P; Sleep 10; P])) /\
  ((forall j, j < 3 -> is_rate_limit (answer j) = true) ->
   fst run = Ok (aborted_text v) /\ posts (snd run) = posts t + 3 /\
   forall text, aborted_text v <> api_error_text v ++ text /\
                aborted_text v <> connection_error_text v ++ text) /\
  posts (snd run) <= posts t + 3.
Proof.
  assert (Hk : forall k, k < 3 ->
     (forall j, j < k -> is_rate_limit (answer j) = true) ->
     run = match answer k with
           | Completion content => (Ok content, t ++ retries P k ++ [P])
           | HTTPError status text =>
               if (status =? 429)%Z
               then attempts v env prompt_text images max_tokens
                      (map Z.of_nat (seq (S k) (2 - k)))
                      (t ++ retries P k ++ [P; Sleep (5 * Z.of_nat (S k))])
               else (Ok (api_error_text v ++ text), t ++ retries P k ++ [P])
           | RequestException text =>
               (Ok (connection_error_text v ++ text), t ++ retries P k ++ [P])
           | Malformed e => (Raise e, t ++ retries P k ++ [P])
           end).
  { intros k Hk H. rewrite (run_after k) by (lia || exact H).
    replace (3 - k) with (S (2 - k)) by lia. simpl seq. simpl map.
    rewrite attempts_step. rewrite posts_retries. fold (answer k). fold P.
    rewrite <- !app_assoc.
    replace (Z.of_nat k + 1)%Z with (Z.of_nat (S k)) by lia.
    reflexivity. }
  split; [|split; [|split]].
  - intros k Hlt H. specialize (Hk k Hlt H).
    destruct (answer k) as [c|s text|text|e]; simpl; auto.
    + destruct (s =? 429)%Z; [exact Hk|].
      split; [exact Hk | apply error_texts_tagged].
    + split; [exact Hk | apply error_texts_tagged].
  - intros content H0 H1 H2.
    assert (H : forall j, j < 2 -> is_rate_limit (answer j) = true).
    { intros [|[|j]] Hj; auto. lia. }
    specialize (Hk 2 (Nat.lt_succ_diag_r 2) H). now rewrite H2 in Hk.
  - intros H. rewrite (run_aborted H). simpl fst. simpl snd.
    split; [reflexivity|]. split; [|apply aborted_text_distinct].
    apply (posts_retries 3).
  - rewrite run_attempts. apply (attempts_bound v env prompt_text images max_tokens (range 3) t).
Qed.

(** C10.  After three rate-limit answers in a row the client has
    waited 5, 10 and 15: the wait of 15 follows the third request,
    nothing follows that wait, and the abort text is returned. *)
Theorem abort_after_third_wait :
  (forall j, j < 3 -> is_rate_limit (answer j) = true) ->
  run = (Ok (aborted_text v), t ++ [P; Sleep 5; P; Sleep 10; P; Sleep 15]) /\
  sleeps (snd run) = sleeps t ++ [5; 10; 15]%Z /\
  posts (snd run) = posts t + 3 /\
  exists before, snd run = before ++ [P; Sleep 15].
Proof.
  intros H. rewrite (run_aborted H). simpl snd.
  split; [reflexivity|]. split; [|split].
  - now rewrite sleeps_app.
  - apply (posts_retries 3).
  - exists (t ++ [P; Sleep 5; P; Sleep 10]). now rewrite <- app_assoc.
Qed.

End RetryPolicy.
Lemma retry_policy_witness :
  image_contents (os (env_rate_limited 2)) [py "Objektbilder/2019/AK-2019-001_a.jpg"]
    = Ok [py "data:image/jpeg;base64,/9j/"] /\
  is_rate_limit (service (env_rate_limited 2) 0) = true /\
  is_rate_limit (service (env_rate_limited 2) 1) = true /\
  service (env_rate_limited 2) 2 = Completion (py "Ein Telefon.") /\
  generate_catalog_text main_py (env_rate_limited 2)
    [py "Objektbilder/2019/AK-2019-001_a.jpg"] (py "Describe.") MAX_TOKENS [] =
  (Ok (py "Ein Telefon."),
   [Post (py "Describe.") [py "data:image/jpeg;base64,/9j/"] MAX_TOKENS; Sleep 5;
    Post (py "Describe.") [py "data:image/jpeg;base64,/9j/"] MAX_TOKENS; Sleep 10;
    Post (py "Describe.") [py "data:image/jpeg;base64,/9j/"] MAX_TOKENS]).
Proof.
  assert (H : image_contents (os (env_rate_limited 2))
                [py "Objektbilder/2019/AK-2019-001_a.jpg"]
              = Ok [py "data:image/jpeg;base64,/9j/"]) by reflexivity.
  split; [exact H|]. split; [reflexivity|]. split; [reflexivity|].
  split; [reflexivity|].
  destruct (retry_policy main_py (env_rate_limited 2)
              [py "Objektbilder/2019/AK-2019-001_a.jpg"] (py "Describe.") MAX_TOKENS
              [py "data:image/jpeg;base64,/9j/"] [] H) as (_ & Htwo & _).
  apply (Htwo (py "Ein Telefon.")); reflexivity.
Defined.

Lemma abort_after_third_wait_witness :
  image_contents (os (env_rate_limited 3)) [py "Objektbilder/2019/AK-2019-001_a.jpg"]
    = Ok [py "data:image/jpeg;base64,/9j/"] /\
  (forall j, j < 3 ->
             is_rate_limit (service (env_rate_limited 3) (posts [] + j)) = true) /\
  sleeps (snd (generate_catalog_text aktuell_py (env_rate_limited 3)
                 [py "Objektbilder/2019/AK-2019-001_a.jpg"] (py "Describe.")
                 MAX_TOKENS [])) = [5; 10; 15]%Z.
Proof.
  assert (H : image_contents (os (env_rate_limited 3))
                [py "Objektbilder/2019/AK-2019-001_a.jpg"]
              = Ok [py "data:image/jpeg;base64,/9j/"]) by reflexivity.
  assert (H3 : forall j, j < 3 ->
             is_rate_limit (service (env_rate_limited 3) (posts [] + j)) = true).
  { intros [|[|[|j]]] Hj; try reflexivity. lia. }
  split; [exact H|]. split; [exact H3|].
  destruct (abort_after_third_wait aktuell_py (env_rate_limited 3)
              [py "Objektbilder/2019/AK-2019-001_a.jpg"] (py "Describe.") MAX_TOKENS
              [py "data:image/jpeg;base64,/9j/"] [] H H3) as (_ & Hsleeps & _).
  exact Hsleeps.
Defined.

(* ================================================================== *)
(** * Keys of groups and their order                                   *)
(* ================================================================== *)




















(* ================================================================== *)
(** * Batch orchestrator                                               *)
(* ================================================================== *)

Lemma str_eqb_sym a b : str_eqb a b = str_eqb b a.
Proof.
  destruct (str_eqb b a) eqn:E.
  - apply str_eqb_eq in E. subst. apply str_eqb_refl.
  - apply str_eqb_neq. apply str_eqb_neq in E. congruence.
Qed.

Lemma positions_found label labels : forall i,
  positions label i labels <> [] -> existsb (str_eqb label) labels = true.
Proof.
  induction labels as [|l r IH]; simpl; intros i H.
  - congruence.
  - rewrite (str_eqb_sym label l). destruct (str_eqb l label); [reflexivity|].
    simpl. now apply (IH (S i)).
Qed.

Lemma error_record_tagged v excel_path object_id e :
  error_tagged v (Description (error_record v excel_path object_id e)) = true.
Proof. destruct v; reflexivity. Qed.

Section OrchestratorFacts.
Context {U : Unicode}.
Variable v : script.
Variable env : Env.
Variables (excel_path base_folder : str) (labels : list str).

Let block := try_block v env excel_path base_folder labels.
Let turn := one_object v env excel_path base_folder labels.
Let loop := for_objects v env excel_path base_folder labels.
Let steps := batch v env excel_path base_folder labels.

(** One turn of the loop never raises: what the try block raises
    becomes the error record. *)
Lemma one_object_cases key group t :
  turn key group t =
  match block key group t with
  | (Ok r, t') => (Ok r, t')
  | (Raise e, t') => (Ok (error_record v excel_path (strip key) e), t')
  end.
Proof. reflexivity. Qed.


(** The loop appends one record per object, as [batch] has it, for
    the objects before the cap. *)
Lemma for_objects_batch max_objects grouped : forall i results t,
  exists records t',
    loop max_objects i grouped results t = (Ok (results ++ records), t') /\
    steps (firstn (Z.to_nat (max_objects - i)) grouped) t records t'.
Proof.
  unfold loop, steps.
  induction grouped as [|[key group] rest IH]; intros i results t.
  - exists [], t. rewrite app_nil_r, firstn_nil. split; [reflexivity | constructor].
  - cbn [for_objects]. destruct (Z.geb_spec i max_objects) as [Hge|Hlt].
    + exists [], t. rewrite app_nil_r.
      replace (Z.to_nat (max_objects - i)) with 0 by lia.
      split; [reflexivity | constructor].
    + replace (Z.to_nat (max_objects - i))
        with (S (Z.to_nat (max_objects - (i + 1)))) by lia.
      unfold bind at 1.
      change (one_object v env excel_path base_folder labels key group t)
        with (turn key group t).
      rewrite one_object_cases.
      destruct (block key group t) as [[r|e] t1] eqn:Hb.
      * destruct (IH (i + 1)%Z (results ++ [r]) t1) as (records & t' & Hrun & Hst).
        exists (r :: records), t'. rewrite Hrun, <- app_assoc.
        split; [reflexivity|]. simpl. eapply batch_done; eauto.
      * destruct (IH (i + 1)%Z (results ++ [error_record v excel_path (strip key) e]) t1)
          as (records & t' & Hrun & Hst).
        exists (error_record v excel_path (strip key) e :: records), t'.
        rewrite Hrun, <- app_assoc.
        split; [reflexivity|]. simpl. eapply batch_isolated; eauto.
Qed.


Lemma batch_length objects t records t' :
  steps objects t records t' -> length records = length objects.
Proof. induction 1; simpl; congruence. Qed.

End OrchestratorFacts.

Section BatchTheorems.
Context {U : Unicode}.
Variable v : script.
Variable env : Env.
Variables (excel_path base_folder : str).
Variables (row_start_1_based row_end_1_based max_objects : Z).
Variable df : DataFrame.
Variable i : nat.
Variable t : trace.

Let labels := map normalise_label (columns df).
Let sliced := slice (rows df) (row_start_1_based - 1) row_end_1_based.
Let cells := filter is_key (map (fun row => nth i row Empty) sliced).
Let keys := sort_keys (first_seen [] cells).
Let grouped :=
  map (fun k => (cell_str k,
                 filter (fun row => key_eqb k (nth i row Empty)) sliced)) keys.
Let run :=
  process_excel v env excel_path base_folder
                row_start_1_based row_end_1_based max_objects t.

Hypothesis Hread : read_excel env excel_path = Ok df.
Hypothesis Hcolumn : positions (py "t1") 0 labels = [i].

Lemma groupby_t1 :
  groupby {| columns := labels; rows := sliced |} (py "t1") =
  Ok (map (fun k => (k, filter (fun row => key_eqb k (nth i row Empty)) sliced))
          keys).
Proof. unfold groupby. cbn [columns rows]. now rewrite Hcolumn. Qed.

Lemma process_excel_loop :
  run = for_objects v env excel_path base_folder labels max_objects 0 grouped [] t.
Proof.
  unfold run, process_excel. unfold bind at 1. unfold lift at 1. rewrite Hread.
  cbn [columns rows]. fold labels. fold sliced.
  rewrite (positions_found (py "t1") labels 0) by (rewrite Hcolumn; discriminate).
  cbn [negb]. unfold bind at 1. unfold lift. rewrite groupby_t1.
  now rewrite map_map.
Qed.

Lemma process_excel_batch :
  exists records t',
    run = (Ok records, t') /\
    batch v env excel_path base_folder labels
          (firstn (Z.to_nat max_objects) grouped) t records t'.
Proof.
  destruct (for_objects_batch v env excel_path base_folder labels
              max_objects grouped 0 [] t) as (records & t' & Hrun & Hst).
  exists records, t'. rewrite process_excel_loop.
  rewrite Z.sub_0_r in Hst. auto.
Qed.



(** C6.  Partial-failure isolation.  For a sheet with one column t1
    the batch ends normally, with one record per object up to the
    cap: an object whose try block raises leaves the error record,
    whose description is error-tagged, and the next object is worked
    on from there ([batch]); the turn of the loop itself returns that
    record and does not raise.  In particular, for three objects of
    which the second raises, the records are the record of the first,
    the error record of the second and the record of the third. *)
Theorem partial_failure_isolation :
  exists records t',
    run = (Ok records, t') /\
    batch v env excel_path base_folder labels
          (firstn (Z.to_nat max_objects) grouped) t records t' /\
    length records = Nat.min (Z.to_nat max_objects) (length grouped) /\
    (forall object_id e,
       error_tagged v (Description (error_record v excel_path object_id e)) = true) /\
    (forall key group t0 e t1,
       try_block v env excel_path base_folder labels key group t0 = (Raise e, t1) ->
       one_object v env excel_path base_folder labels key group t0 =
         (Ok (error_record v excel_path (strip key) e), t1)) /\
    (forall k1 g1 k2 g2 k3 g3 r1 t1 e t2 r3 t3,
       firstn (Z.to_nat max_objects) grouped = [(k1, g1); (k2, g2); (k3, g3)] ->
       try_block v env excel_path base_folder labels k1 g1 t = (Ok r1, t1) ->
       try_block v env excel_path base_folder labels k2 g2 t1 = (Raise e, t2) ->
       try_block v env excel_path base_folder labels k3 g3 t2 = (Ok r3, t3) ->
       records = [r1; error_record v excel_path (strip k2) e; r3] /\ t' = t3).
Proof.
  destruct process_excel_batch as (records & t' & Hrun & Hst).
  exists records, t'. split; [exact Hrun|]. split; [exact Hst|].
  split; [|split; [|split]].
  - rewrite (batch_length _ _ _ _ _ _ _ _ _ Hst). apply length_firstn.
  - apply error_record_tagged.
  - intros key group t0 e t1 Hraise.
    rewrite (one_object_cases v env excel_path base_folder labels key group t0).
    now rewrite Hraise.
  - intros k1 g1 k2 g2 k3 g3 r1 t1 e t2 r3 t3 Hobj H1 H2 H3.
    rewrite Hobj in Hst.
    inversion Hst as [| ? ? ? ? ? ? ? ? Hb1 Hst1 | ? ? ? ? ? ? ? ? Hb1 Hst1]; subst;
      rewrite H1 in Hb1; [|discriminate].
    injection Hb1 as <- <-.
    inversion Hst1 as [| ? ? ? ? ? ? ? ? Hb2 Hst2 | ? ? ? ? ? ? ? ? Hb2 Hst2]; subst;
      rewrite H2 in Hb2; [discriminate|].
    injection Hb2 as <- <-.
    inversion Hst2 as [| ? ? ? ? ? ? ? ? Hb3 Hst3 | ? ? ? ? ? ? ? ? Hb3 Hst3]; subst;
      rewrite H3 in Hb3; [|discriminate].
    injection Hb3 as <- <-.
    inversion Hst3; subst. auto.
Qed.

End BatchTheorems.


Lemma partial_failure_isolation_witness :
  read_excel env_three (py "data/Liste.xls") = Ok three_objects /\
  positions (py "t1") 0 (map (normalise_label (U := ascii_only)) (columns three_objects))
    = [0] /\
  exists records t',
    process_excel (U := ascii_only) main_py env_three
      (py "data/Liste.xls") (py "Objektbilder") 1 3 5 [] = (Ok records, t') /\
    map ObjectID records = [py "AK/2019/001"; py "AK/2019/002"; py "AK/2020/003"] /\
    map Description records =
      [py "Ein Telefon."; py "Error: Processing error: 'choices'"; py "Eine Lampe."] /\
    map (error_tagged main_py) (map Description records) = [false; true; false].
Proof.
  split; [reflexivity|]. split; [reflexivity|].
  destruct (partial_failure_isolation (U := ascii_only) main_py env_three
              (py "data/Liste.xls") (py "Objektbilder") 1 3 5 three_objects 0 []
              eq_refl eq_refl) as (records & t' & Hrun & _ & _ & _ & _ & Hthree).
  exists records, t'. split; [exact Hrun|].
  edestruct Hthree as [Hrecords _].
  - vm_compute. reflexivity.
  - vm_compute. reflexivity.
  - vm_compute. reflexivity.
  - vm_compute. reflexivity.
  - rewrite Hrecords. repeat split; reflexivity.
Defined.
